(** * Saga glue of grabbit ([gbus/saga/glue.go]): a shallow embedding

    [Glue] ties the messages delivered by the bus to saga instances.  The
    embedding follows [glue.go] function by function.  The collaborators
    the Go code reaches through interfaces ([Store], [gbus.TimeoutManager],
    [gbus.Bus], the saga author's [gbus.Saga]) are type classes over an
    abstract state; every call the glue issues on one of them is also
    appended to a chronological record of calls, so that statements such
    as "no update is issued" can be phrased on that record.

    Go pointers to instances are values here: a function that changes an
    instance in place returns the changed instance, and the instances a
    store hands out are taken to be distinct objects.  Business code is
    a function of the saga value it is run on; what a handler does
    beyond that (messages it sends, rows it writes through the
    transaction) is not modelled.  Logging, tracing spans and the mutex
    held by [SagaHandler] have no influence on the values computed and
    are left out. *)

From stdpp Require Import base option list strings gmap.
From Stdlib Require Import ZArith Ascii.

(** ** Plain data *)

(** [reflect.Type] of a saga, used only for [==] and for printing. *)
Definition SagaType := string.

(** [*sql.Tx]: an opaque transaction handle. *)
Definition TxHandle := nat.

(** [time.Duration]. *)
Definition Duration := Z.

(** Go [error] values.  [ErrInstanceNotFound] is the package-level
    sentinel of [glue.go]; [errorString] stands for any other error
    ([errors.New], [fmt.Errorf], errors of the collaborators).  The
    sentinel is compared by identity in Go, hence a constructor of its
    own: an [errorString] with the same text is a different error. *)
Inductive error : Type :=
| ErrInstanceNotFound
| errorString (text : string).

Definition error_is_sentinel (e : error) : bool :=
  match e with ErrInstanceNotFound => true | errorString _ => false end.

(** Modelled from the spec: the semantics tag of a message envelope
    ([gbus.Semantics], declared outside [glue.go]); [glue.go] only
    compares it with [CMD]. *)
Inductive Semantics : Type := CMD | EVT | REPLY.

Definition Semantics_eqb (a b : Semantics) : bool :=
  match a, b with
  | CMD, CMD | EVT, EVT | REPLY, REPLY => true
  | _, _ => false
  end.

(** [gbus.Message]: what the glue uses of it is [SchemaName()]. *)
Record Message : Type := mkMessage { SchemaName : string }.

(** [gbus.BusMessage], the fields read by [glue.go]. *)
Module BusMessage.
Record t : Type := mk {
  ID : string;
  SagaID : string;
  SagaCorrelationID : string;
  RPCID : string;
  Semantics : Semantics;
  PayloadFQN : string
}.
End BusMessage.

(** [gbus.Invocation], the accessors read by [glue.go]. *)
Module Invocation.
Record t : Type := mk {
  InvokingSvc : string;
  Tx : TxHandle;
  Routing : string * string
}.
End Invocation.

(** The [sagaInvocation] built by [invokeSagaInstance] (logger, decorated
    bus and tracing context left out). *)
Module sagaInvocation.
Record t : Type := mk {
  decoratedInvocation : Invocation.t;
  inboundMsg : BusMessage.t;
  sagaID : string;
  hostingSvc : string;
  startedBy : string;
  startedBySaga : string;
  startedByMessageID : string;
  startedByRPCID : string
}.
End sagaInvocation.

(** Modelled from the spec: [gbus.MessageFilter] (declared outside
    [glue.go]).  The message name it holds is the dispatch index key. *)
Record MessageFilter : Type := mkMessageFilter {
  Exchange : string;
  RoutingKey : string;
  MsgName : string
}.

(** Modelled from the spec: [MsgToFuncPair] (declared outside
    [glue.go]), one line of the handler table of a Def: the filter of
    the message and the name of the handler. *)
Record MsgToFuncPair : Type := mkMsgToFuncPair {
  Filter : MessageFilter;
  SagaFuncName : string
}.

(** Modelled from the spec: what a saga asks of its Def inside
    [RegisterAllHandlers], a handler for a message or for an event on a
    topic. *)
Inductive HandlerRegistration : Type :=
| AskHandleMessage (message : Message) (handler : string)
| AskHandleEvent (exchange topic : string) (event : Message) (handler : string).

Definition askedMessage (ask : HandlerRegistration) : Message :=
  match ask with
  | AskHandleMessage message _ => message
  | AskHandleEvent _ _ event _ => event
  end.

(** ** [strings.ToLower], on ASCII *)

Definition toLowerByte (c : ascii) : ascii :=
  let n := nat_of_ascii c in
  if ((65 <=? n) && (n <=? 90))%nat then ascii_of_nat (n + 32) else c.

Fixpoint ToLower (s : string) : string :=
  match s with
  | EmptyString => EmptyString
  | String c rest => String (toLowerByte c) (ToLower rest)
  end.

(** [fqnsFromMessages] (glue.go, line 19): the schema names, appended
    one by one. *)
Definition fqnsFromMessages (objs : list Message) : list string :=
  fold_left (fun fqns obj => fqns ++ [SchemaName obj]) objs [].

(** Result of a function that may panic (nil pointer dereference). *)
Inductive Res (A : Type) : Type :=
| Returned (a : A)
| Panicked.
Arguments Returned {A} a.
Arguments Panicked {A}.

Section Glue.

(** The saga author's type: the value behind [gbus.Saga]. *)
Context {Saga : Type}.

(** [saga.Instance], the fields read or written by [glue.go] and the
    saga it wraps. *)
Record Instance : Type := mkInstance {
  ID : string;
  StartedBy : string;
  StartedBySaga : string;
  StartedByRPCID : string;
  StartedByMessageID : string;
  UnderlyingInstance : Saga
}.

(** [saga.Def] as built by [RegisterSaga] (back pointer to the glue and
    lock left out). *)
Record Def : Type := mkDef {
  sagaType : SagaType;
  sagaConfFns : list (Saga -> Saga);
  startedBy : list string;
  msgToFunc : list MsgToFuncPair
}.

(** Calls issued by the glue on its collaborators and on business code,
    with their arguments. *)
Inductive Call : Type :=
| CallRegisterSagaType (saga : Saga)
| CallSaveNewSaga (tx : TxHandle) (sagaType : SagaType) (instance : Instance)
| CallGetSagaByID (tx : TxHandle) (sagaID : string)
| CallGetSagasByType (tx : TxHandle) (sagaType : SagaType)
| CallUpdateSaga (tx : TxHandle) (instance : Instance)
| CallDeleteSaga (tx : TxHandle) (instance : Instance)
| CallRegisterTimeout (tx : TxHandle) (sagaID : string) (duration : Duration)
| CallClearTimeout (tx : TxHandle) (sagaID : string)
| CallBusHandleMessage (message : Message)
| CallBusHandleEvent (exchange topic : string) (event : Message)
| CallInvoke (instance : Instance) (exchange routingKey : string)
    (sginv : sagaInvocation.t) (message : BusMessage.t)
| CallTimeout (instance : Instance) (tx : TxHandle)
| CallSagaTimeoutCounterInc.

(** The [Store] interface. *)
Class Store (S : Type) : Type := {
  RegisterSagaType : S -> Saga -> S;
  SaveNewSaga : S -> TxHandle -> SagaType -> Instance -> option error * S;
  GetSagaByID : S -> TxHandle -> string -> (option Instance * option error) * S;
  GetSagasByType : S -> TxHandle -> SagaType -> (list Instance * option error) * S;
  UpdateSaga : S -> TxHandle -> Instance -> option error * S;
  DeleteSaga : S -> TxHandle -> Instance -> option error * S
}.

(** The part of [gbus.TimeoutManager] used after construction. *)
Class TimeoutManager (T : Type) : Type := {
  RegisterTimeout : T -> TxHandle -> string -> Duration -> option error * T;
  ClearTimeout : T -> TxHandle -> string -> option error * T
}.

(** The part of [gbus.Bus] used by the glue. *)
Class Bus (B : Type) : Type := {
  HandleMessage : B -> Message -> option error * B;
  HandleEvent : B -> string -> string -> Message -> option error * B
}.

(** Modelled from the spec: the capabilities of a saga value
    ([gbus.Saga], declared outside [glue.go]): its type, its start
    triggers, the handlers it registers, its business handler, whether it
    is complete, the timeout it requests and its timeout handler; and the
    generator of instance ids. *)
Class SagaLogic : Type := {
  TypeOf : Saga -> SagaType;
  Saga_New : SagaType -> Saga;
  Saga_StartedBy : Saga -> list Message;
  Saga_RegisterAllHandlers : Saga -> list HandlerRegistration;
  Saga_Handle : Saga -> string -> string -> sagaInvocation.t -> BusMessage.t ->
                Saga * option error;
  Saga_IsComplete : Saga -> bool;
  Saga_TimeoutDuration : Saga -> option Duration;
  Saga_Timeout : Saga -> TxHandle -> Saga * option error;
  newID : nat -> string
}.

Context `{!SagaLogic}.
Context {StoreS : Type} `{!Store StoreS}.
Context {TimerS : Type} `{!TimeoutManager TimerS}.
Context {BusS : Type} `{!Bus BusS}.

(** [Glue].  [calls] and [created] are not fields of the Go struct:
    [calls] records, oldest first, every call issued on a collaborator or
    on business code, and [created] counts the instances constructed so
    far (it feeds the id generator). *)
Record Glue : Type := mkGlue {
  svcName : string;
  bus : BusS;
  sagaDefs : list Def;
  alreadyRegistred : gmap string bool;
  msgToDefMap : gmap string (list Def);
  sagaStore : StoreS;
  timeoutManager : TimerS;
  calls : list Call;
  created : nat
}.

Definition with_bus (b : BusS) (g : Glue) : Glue :=
  mkGlue (svcName g) b (sagaDefs g) (alreadyRegistred g) (msgToDefMap g)
         (sagaStore g) (timeoutManager g) (calls g) (created g).
Definition with_sagaDefs (ds : list Def) (g : Glue) : Glue :=
  mkGlue (svcName g) (bus g) ds (alreadyRegistred g) (msgToDefMap g)
         (sagaStore g) (timeoutManager g) (calls g) (created g).
Definition with_alreadyRegistred (r : gmap string bool) (g : Glue) : Glue :=
  mkGlue (svcName g) (bus g) (sagaDefs g) r (msgToDefMap g)
         (sagaStore g) (timeoutManager g) (calls g) (created g).
Definition with_msgToDefMap (m : gmap string (list Def)) (g : Glue) : Glue :=
  mkGlue (svcName g) (bus g) (sagaDefs g) (alreadyRegistred g) m
         (sagaStore g) (timeoutManager g) (calls g) (created g).
Definition with_sagaStore (s : StoreS) (g : Glue) : Glue :=
  mkGlue (svcName g) (bus g) (sagaDefs g) (alreadyRegistred g) (msgToDefMap g)
         s (timeoutManager g) (calls g) (created g).
Definition with_timeoutManager (t : TimerS) (g : Glue) : Glue :=
  mkGlue (svcName g) (bus g) (sagaDefs g) (alreadyRegistred g) (msgToDefMap g)
         (sagaStore g) t (calls g) (created g).
Definition with_calls cs (g : Glue) : Glue :=
  mkGlue (svcName g) (bus g) (sagaDefs g) (alreadyRegistred g) (msgToDefMap g)
         (sagaStore g) (timeoutManager g) cs (created g).
Definition with_created (n : nat) (g : Glue) : Glue :=
  mkGlue (svcName g) (bus g) (sagaDefs g) (alreadyRegistred g) (msgToDefMap g)
         (sagaStore g) (timeoutManager g) (calls g) n.

(** ** The monad of glue methods: state passing over [Glue] *)

Definition M (A : Type) : Type := Glue -> A * Glue.

Definition ret {A} (a : A) : M A := fun g => (a, g).

Definition bind {A C} (m : M A) (k : A -> M C) : M C :=
  fun g => let (a, g') := m g in k a g'.

Notation "x <~ m ;; k" := (bind m (fun x => k))
  (at level 100, m at level 99, k at level 200, right associativity,
   format "'[v' x  <~  m  ;; '/' k ']'").
Notation "m ;;; k" := (bind m (fun _ => k))
  (at level 100, k at level 200, right associativity,
   format "'[v' m  ;;; '/' k ']'").

Definition record_call (c : Call) : M unit :=
  fun g => (tt, with_calls (calls g ++ [c]) g).

(** *** Calls on the collaborators *)

Definition sagaStore_RegisterSagaType (saga : Saga) : M unit :=
  record_call (CallRegisterSagaType saga) ;;;
  fun g => (tt, with_sagaStore (RegisterSagaType (sagaStore g) saga) g).

Definition sagaStore_SaveNewSaga (tx : TxHandle) (ty : SagaType)
    (instance : Instance) : M (option error) :=
  record_call (CallSaveNewSaga tx ty instance) ;;;
  fun g => let (e, s) := SaveNewSaga (sagaStore g) tx ty instance in
           (e, with_sagaStore s g).

Definition sagaStore_GetSagaByID (tx : TxHandle) (sagaID : string)
    : M (option Instance * option error) :=
  record_call (CallGetSagaByID tx sagaID) ;;;
  fun g => let (r, s) := GetSagaByID (sagaStore g) tx sagaID in
           (r, with_sagaStore s g).

Definition sagaStore_GetSagasByType (tx : TxHandle) (ty : SagaType)
    : M (list Instance * option error) :=
  record_call (CallGetSagasByType tx ty) ;;;
  fun g => let (r, s) := GetSagasByType (sagaStore g) tx ty in
           (r, with_sagaStore s g).

Definition sagaStore_UpdateSaga (tx : TxHandle) (instance : Instance)
    : M (option error) :=
  record_call (CallUpdateSaga tx instance) ;;;
  fun g => let (e, s) := UpdateSaga (sagaStore g) tx instance in
           (e, with_sagaStore s g).

Definition sagaStore_DeleteSaga (tx : TxHandle) (instance : Instance)
    : M (option error) :=
  record_call (CallDeleteSaga tx instance) ;;;
  fun g => let (e, s) := DeleteSaga (sagaStore g) tx instance in
           (e, with_sagaStore s g).

Definition timeoutManager_RegisterTimeout (tx : TxHandle) (sagaID : string)
    (duration : Duration) : M (option error) :=
  record_call (CallRegisterTimeout tx sagaID duration) ;;;
  fun g => let (e, t) := RegisterTimeout (timeoutManager g) tx sagaID duration in
           (e, with_timeoutManager t g).

Definition timeoutManager_ClearTimeout (tx : TxHandle) (sagaID : string)
    : M (option error) :=
  record_call (CallClearTimeout tx sagaID) ;;;
  fun g => let (e, t) := ClearTimeout (timeoutManager g) tx sagaID in
           (e, with_timeoutManager t g).

Definition bus_HandleMessage (message : Message) : M (option error) :=
  record_call (CallBusHandleMessage message) ;;;
  fun g => let (e, b) := HandleMessage (bus g) message in (e, with_bus b g).

Definition bus_HandleEvent (exchange topic : string) (event : Message)
    : M (option error) :=
  record_call (CallBusHandleEvent exchange topic event) ;;;
  fun g => let (e, b) := HandleEvent (bus g) exchange topic event in
           (e, with_bus b g).

(** ** Methods of [Def] and [Instance] used by the glue

    These methods are declared in [def.go] and [instance.go], outside
    [glue.go], which only calls them. *)

Definition with_UnderlyingInstance (saga : Saga) (instance : Instance) : Instance :=
  mkInstance (ID instance) (StartedBy instance) (StartedBySaga instance)
             (StartedByRPCID instance) (StartedByMessageID instance) saga.

(** Modelled from the spec: [gbus.NewMessageFilter].  The schema name of
    a message descriptor is the dispatch index key and is compared
    without regard to letter case: the filter keeps it in lower case. *)
Definition NewMessageFilter (exchange routingKey : string) (message : Message)
    : MessageFilter :=
  mkMessageFilter exchange routingKey (ToLower (SchemaName message)).

(** Modelled from the spec: [Def.addMsgToHandlerMapping], one more line
    in the handler table of the Def. *)
Definition addMsgToHandlerMapping (exchange routingKey : string)
    (message : Message) (handler : string) (def : Def) : Def :=
  mkDef (sagaType def) (sagaConfFns def) (startedBy def)
        (msgToFunc def ++ [mkMsgToFuncPair (NewMessageFilter exchange routingKey message) handler]).

(** Modelled from the spec: [Def.getHandledMessages], every message name
    the handler table covers. *)
Definition getHandledMessages (def : Def) : list string :=
  map (fun pair => MsgName (Filter pair)) (msgToFunc def).

(** Modelled from the spec: [Def.shouldStartNewSaga], whether the
    [startedBy] set of the Def contains the name of the message. *)
Definition shouldStartNewSaga (def : Def) (message : BusMessage.t) : bool :=
  existsb (String.eqb (BusMessage.PayloadFQN message)) (startedBy def).

(** Modelled from the spec: [Def.configureSaga], the configuration
    functions given at registration applied to the saga of the instance. *)
Definition configureSaga (def : Def) (instance : Instance) : Instance :=
  with_UnderlyingInstance
    (fold_left (fun saga conf => conf saga) (sagaConfFns def)
               (UnderlyingInstance instance))
    instance.

(** Modelled from the spec: [Def.newInstance], a fresh instance of the
    saga type of the Def under a newly generated id, causation fields
    still empty. *)
Definition newInstance (def : Def) : M Instance :=
  fun g =>
    (configureSaga def
       (mkInstance (newID (created g)) "" "" "" "" (Saga_New (sagaType def))),
     with_created (S (created g)) g).

(** Modelled from the spec: [Instance.invoke], the business handler run
    on the saga of the instance, whose state it may change. *)
Definition Instance_invoke (instance : Instance) (exchange routingKey : string)
    (sginv : sagaInvocation.t) (message : BusMessage.t)
    : M (Instance * option error) :=
  record_call (CallInvoke instance exchange routingKey sginv message) ;;;
  let (saga, err) :=
    Saga_Handle (UnderlyingInstance instance) exchange routingKey sginv message in
  ret (with_UnderlyingInstance saga instance, err).

(** Modelled from the spec: [Instance.isComplete]. *)
Definition isComplete (instance : Instance) : bool :=
  Saga_IsComplete (UnderlyingInstance instance).

(** Modelled from the spec: [Instance.requestsTimeout]. *)
Definition requestsTimeout (instance : Instance) : bool * Duration :=
  match Saga_TimeoutDuration (UnderlyingInstance instance) with
  | Some duration => (true, duration)
  | None => (false, 0%Z)
  end.

(** Modelled from the spec: [Instance.timeout], the timeout handler of
    the saga. *)
Definition Instance_timeout (instance : Instance) (tx : TxHandle)
    : M (Instance * option error) :=
  record_call (CallTimeout instance tx) ;;;
  let (saga, err) := Saga_Timeout (UnderlyingInstance instance) tx in
  ret (with_UnderlyingInstance saga instance, err).

(** ** [glue.go] *)

(** [isSagaAlreadyRegistered] (line 46): the loop over [sagaDefs]. *)
Fixpoint isSagaAlreadyRegistered_in (defs : list Def) (ty : SagaType) : bool :=
  match defs with
  | [] => false
  | def :: rest =>
      if String.eqb (sagaType def) ty then true
      else isSagaAlreadyRegistered_in rest ty
  end.

Definition isSagaAlreadyRegistered (ty : SagaType) : M bool :=
  fun g => (isSagaAlreadyRegistered_in (sagaDefs g) ty, g).

(** [getDefsForMsgName] (line 96): a missing key reads as the empty
    slice. *)
Definition getDefsForMsgName (msgName : string) : M (list Def) :=
  fun g =>
    (match msgToDefMap g !! msgName with
     | Some defs => defs
     | None => []
     end, g).

(** [addMsgNameToDef] (line 90): the Def is appended to the list under
    [msgName], the key being used as it is given. *)
Definition addMsgNameToDef (msgName : string) (def : Def) : M unit :=
  defs <~ getDefsForMsgName msgName ;;
  fun g => (tt, with_msgToDefMap (<[msgName := defs ++ [def]]> (msgToDefMap g)) g).

(** The loop of [RegisterSaga] (lines 79-81) over the handled names. *)
Fixpoint addMsgNamesToDef (msgNames : list string) (def : Def) : M unit :=
  match msgNames with
  | [] => ret tt
  | msgName :: rest =>
      addMsgNameToDef msgName def ;;;
      addMsgNamesToDef rest def
  end.

(** [registerMessage] (line 271) and [registerEvent] (line 280): one
    subscription per schema name.  The callback handed to the bus is
    always [SagaHandler]; the bus state does not hold it. *)
Definition registerMessage (message : Message) : M (option error) :=
  fun g =>
    match alreadyRegistred g !! SchemaName message with
    | Some _ => (None, g)
    | None =>
        bus_HandleMessage message
          (with_alreadyRegistred (<[SchemaName message := true]> (alreadyRegistred g)) g)
    end.

Definition registerEvent (exchange topic : string) (event : Message)
    : M (option error) :=
  fun g =>
    match alreadyRegistred g !! SchemaName event with
    | Some _ => (None, g)
    | None =>
        bus_HandleEvent exchange topic event
          (with_alreadyRegistred (<[SchemaName event := true]> (alreadyRegistred g)) g)
    end.

(** Modelled from the spec: [Def.HandleMessage], by which a saga puts
    a message into the handler table of its Def; the glue subscribes
    with the bus once per message name. *)
Definition Def_HandleMessage (message : Message) (handler : string) (def : Def)
    : M (Def * option error) :=
  fun g =>
    let def' := addMsgToHandlerMapping "" (svcName g) message handler def in
    let (e, g') := registerMessage message g in
    ((def', e), g').

(** Modelled from the spec: [Def.HandleEvent], the same for an event
    on a topic of an exchange. *)
Definition Def_HandleEvent (exchange topic : string) (event : Message)
    (handler : string) (def : Def) : M (Def * option error) :=
  let def' := addMsgToHandlerMapping exchange topic event handler def in
  e <~ registerEvent exchange topic event ;;
  ret (def', e).

(** Modelled from the spec: [saga.RegisterAllHandlers(def)], the saga
    issues its registrations one after the other on the Def it was
    given. *)
Fixpoint RegisterAllHandlers (asks : list HandlerRegistration) (def : Def) : M Def :=
  match asks with
  | [] => ret def
  | AskHandleMessage message handler :: rest =>
      r <~ Def_HandleMessage message handler def ;;
      RegisterAllHandlers rest (fst r)
  | AskHandleEvent exchange topic event handler :: rest =>
      r <~ Def_HandleEvent exchange topic event handler def ;;
      RegisterAllHandlers rest (fst r)
  end.

(** [RegisterSaga] (line 56). *)
Definition RegisterSaga (saga : Saga) (conf : list (Saga -> Saga)) : M (option error) :=
  let ty := TypeOf saga in
  registered <~ isSagaAlreadyRegistered ty ;;
  if registered : bool then
    ret (Some (errorString ("saga of type " +:+ ty +:+ " already registered")))
  else
    sagaStore_RegisterSagaType saga ;;;
    let def := mkDef ty conf (fqnsFromMessages (Saga_StartedBy saga)) [] in
    def <~ RegisterAllHandlers (Saga_RegisterAllHandlers saga) def ;;
    (fun g => (tt, with_sagaDefs (sagaDefs g ++ [def]) g)) ;;;
    let msgNames := getHandledMessages def in
    addMsgNamesToDef msgNames def ;;;
    ret None.

(** [invokeSagaInstance] (line 223); it returns the instance as the
    handler left it along with the error. *)
Definition invokeSagaInstance (def : Def) (instance : Instance)
    (invocation : Invocation.t) (message : BusMessage.t)
    : M (Instance * option error) :=
  fun g =>
    let sginv :=
      sagaInvocation.mk invocation message (ID instance) (svcName g)
        (StartedBy instance) (StartedBySaga instance)
        (StartedByMessageID instance) (StartedByRPCID instance) in
    let (exchange, routingKey) := Invocation.Routing invocation in
    Instance_invoke instance exchange routingKey sginv message g.

(** [completeOrUpdateSaga] (line 255). *)
Definition completeOrUpdateSaga (tx : TxHandle) (instance : Instance)
    : M (option error) :=
  if isComplete instance then
    deleteErr <~ sagaStore_DeleteSaga tx instance ;;
    match deleteErr with
    | Some e => ret (Some e)
    | None => timeoutManager_ClearTimeout tx (ID instance)
    end
  else sagaStore_UpdateSaga tx instance.

(** [handleNewSaga] (line 104). *)
Definition handleNewSaga (def : Def) (invocation : Invocation.t)
    (message : BusMessage.t) : M (option error) :=
  newInstance <~ newInstance def ;;
  let newInstance :=
    mkInstance (ID newInstance)
               (Invocation.InvokingSvc invocation)
               (BusMessage.SagaID message)
               (BusMessage.RPCID message)
               (BusMessage.ID message)
               (UnderlyingInstance newInstance) in
  r <~ invokeSagaInstance def newInstance invocation message ;;
  let (newInstance, invkErr) := r : Instance * option error in
  match invkErr with
  | Some e => ret (Some e)
  | None =>
      if negb (isComplete newInstance) then
        e <~ sagaStore_SaveNewSaga (Invocation.Tx invocation) (sagaType def) newInstance ;;
        match e with
        | Some e => ret (Some e)
        | None =>
            let (requests, duration) := requestsTimeout newInstance in
            if requests : bool then
              tme <~ timeoutManager_RegisterTimeout (Invocation.Tx invocation)
                       (ID newInstance) duration ;;
              match tme with
              | Some tme => ret (Some tme)
              | None => ret None
              end
            else ret None
        end
      else ret None
  end.

(** The inner loop of [SagaHandler] (lines 206-216) over the instances
    of one saga type. *)
Fixpoint invokeInstances (def : Def) (invocation : Invocation.t)
    (message : BusMessage.t) (instances : list Instance) : M (option error) :=
  match instances with
  | [] => ret None
  | instance :: rest =>
      let instance := configureSaga def instance in
      r <~ invokeSagaInstance def instance invocation message ;;
      let (instance, invkErr) := r : Instance * option error in
      match invkErr with
      | Some e => ret (Some e)
      | None =>
          e <~ completeOrUpdateSaga (Invocation.Tx invocation) instance ;;
          match e with
          | Some e => ret (Some e)
          | None => invokeInstances def invocation message rest
          end
      end
  end.

(** The loop of [SagaHandler] (lines 147-218) over the Defs indexed
    under the message name; the [nil] returned after the loop (line 220)
    is the case of the empty list. *)
Fixpoint handleDefs (invocation : Invocation.t) (message : BusMessage.t)
    (defs : list Def) : M (option error) :=
  match defs with
  | [] => ret None
  | def :: rest =>
      let startNew := shouldStartNewSaga def message in
      if startNew then handleNewSaga def invocation message
      else if negb (String.eqb (BusMessage.SagaCorrelationID message) "") then
        r <~ sagaStore_GetSagaByID (Invocation.Tx invocation)
               (BusMessage.SagaCorrelationID message) ;;
        let (instance, getErr) := r : option Instance * option error in
        match getErr with
        | Some getErr => ret (Some getErr)
        | None =>
            match instance with
            | None => ret None
            | Some instance =>
                let instance := configureSaga def instance in
                r <~ invokeSagaInstance def instance invocation message ;;
                let (instance, invkErr) := r : Instance * option error in
                match invkErr with
                | Some invkErr => ret (Some invkErr)
                | None => completeOrUpdateSaga (Invocation.Tx invocation) instance
                end
            end
        end
      else if Semantics_eqb (BusMessage.Semantics message) CMD then
        ret (Some (errorString "can not resolve saga instance for message"))
      else
        r <~ sagaStore_GetSagasByType (Invocation.Tx invocation) (sagaType def) ;;
        let (instances, e) := r : list Instance * option error in
        match e with
        | Some e => ret (Some e)
        | None =>
            e <~ invokeInstances def invocation message instances ;;
            match e with
            | Some e => ret (Some e)
            | None => handleDefs invocation message rest
            end
        end
  end.

(** The Defs [SagaHandler] iterates over (line 145): the name of the
    message is lowered before the lookup, and a missing key of a Go map
    reads as the nil slice. *)
Definition resolveDefs (g : Glue) (message : BusMessage.t) : list Def :=
  let msgName := BusMessage.PayloadFQN message in
  match msgToDefMap g !! ToLower msgName with
  | Some defs => defs
  | None => []
  end.

(** [SagaHandler] (line 139). *)
Definition SagaHandler (invocation : Invocation.t) (message : BusMessage.t)
    : M (option error) :=
  fun g => handleDefs invocation message (resolveDefs g message) g.

(** [TimeoutSaga] (line 290).  When the store returns neither an
    instance nor an error, [saga.String()] dereferences a nil pointer. *)
Definition TimeoutSaga (tx : TxHandle) (sagaID : string) : M (Res (option error)) :=
  r <~ sagaStore_GetSagaByID tx sagaID ;;
  let (saga, err) := r : option Instance * option error in
  match err with
  | Some err =>
      if error_is_sentinel err then ret (Returned None)
      else ret (Returned (Some err))
  | None =>
      match saga with
      | None => ret Panicked
      | Some saga =>
          r <~ Instance_timeout saga tx ;;
          let (saga, timeoutErr) := r : Instance * option error in
          match timeoutErr with
          | Some timeoutErr => ret (Returned (Some timeoutErr))
          | None =>
              record_call CallSagaTimeoutCounterInc ;;;
              e <~ completeOrUpdateSaga tx saga ;;
              ret (Returned e)
          end
      end
  end.

(** Def [d] is in the list indexed under the key [k]. *)
Definition indexed (g : Glue) (k : string) (d : Def) : Prop :=
  exists defs, msgToDefMap g !! k = Some defs /\ d ∈ defs.

(** ** Reading the record of calls *)

(** The calls issued between state [g] and a later state [g']. *)
Definition issued (g g' : Glue) : list Call :=
  drop (length (calls g)) (calls g').

(** A save, update or delete on the store. *)
Definition isPersistenceMutation (c : Call) : bool :=
  match c with
  | CallSaveNewSaga _ _ _ | CallUpdateSaga _ _ | CallDeleteSaga _ _ => true
  | _ => false
  end.

(** A registration or clearing of a timeout. *)
Definition isTimeoutMutation (c : Call) : bool :=
  match c with
  | CallRegisterTimeout _ _ _ | CallClearTimeout _ _ => true
  | _ => false
  end.

(** A call into business code: a message handler or a timeout handler. *)
Definition isBusinessCall (c : Call) : bool :=
  match c with
  | CallInvoke _ _ _ _ _ | CallTimeout _ _ => true
  | _ => false
  end.

Definition isTimeoutHandlerCall (c : Call) : bool :=
  match c with
  | CallTimeout _ _ => true
  | _ => false
  end.

(** The instances business handlers were invoked on, in order. *)
Definition invokedInstances cs : list Instance :=
  flat_map (fun c => match c with CallInvoke i _ _ _ _ => [i] | _ => [] end) cs.

(** The instances an update or a delete was issued for, in order. *)
Definition reconciledInstances cs : list Instance :=
  flat_map (fun c => match c with
                     | CallUpdateSaga _ i | CallDeleteSaga _ i => [i]
                     | _ => []
                     end) cs.

(** No instance of the list from position [n] on (counted from 0) is
    among the instances a handler was invoked on, nor among those an
    update or a delete was issued for; instances are told apart by id. *)
Definition untouchedFrom (n : nat) (instances : list Instance) (cs : list Call) : Prop :=
  forall k instance,
    n <= k -> instances !! k = Some instance ->
    (ID instance ∉ map ID (invokedInstances cs)) /\
    (ID instance ∉ map ID (reconciledInstances cs)).

(** The [sagaInvocation] that [invokeSagaInstance] builds in a glue of
    service name [svc], the call it makes and what the call returns. *)
Definition sagaInvocationOf (svc : string) (instance : Instance)
    (invocation : Invocation.t) (message : BusMessage.t) : sagaInvocation.t :=
  sagaInvocation.mk invocation message (ID instance) svc
    (StartedBy instance) (StartedBySaga instance)
    (StartedByMessageID instance) (StartedByRPCID instance).

Definition invokeCall (svc : string) (instance : Instance)
    (invocation : Invocation.t) (message : BusMessage.t) : Call :=
  CallInvoke instance (fst (Invocation.Routing invocation))
    (snd (Invocation.Routing invocation))
    (sagaInvocationOf svc instance invocation message) message.

Definition invokeResult (svc : string) (instance : Instance)
    (invocation : Invocation.t) (message : BusMessage.t) : Instance * option error :=
  let r := Saga_Handle (UnderlyingInstance instance)
             (fst (Invocation.Routing invocation))
             (snd (Invocation.Routing invocation))
             (sagaInvocationOf svc instance invocation message) message in
  (with_UnderlyingInstance (fst r) instance, snd r).

(** The calls of a reconciliation that runs to its end. *)
Definition reconcileCalls (tx : TxHandle) (instance : Instance) : list Call :=
  if isComplete instance
  then [CallDeleteSaga tx instance; CallClearTimeout tx (ID instance)]
  else [CallUpdateSaga tx instance].

(** One full round of the fan-out loop on a stored instance: the handler
    is invoked on the configured instance, then the instance as the
    handler left it is reconciled. *)
Definition fanOutRound (svc : string) (def : Def) (invocation : Invocation.t)
    (message : BusMessage.t) (instance : Instance) : list Call :=
  let configured := configureSaga def instance in
  invokeCall svc configured invocation message
  :: reconcileCalls (Invocation.Tx invocation)
       (fst (invokeResult svc configured invocation message)).

(** The state a call on the store leaves: the call recorded and the
    store as the call left it. *)
Definition after_store_call (c : Call) (s : StoreS) (g : Glue) : Glue :=
  with_sagaStore s (with_calls (calls g ++ [c]) g).

Definition after_timer_call (c : Call) (t : TimerS) (g : Glue) : Glue :=
  with_timeoutManager t (with_calls (calls g ++ [c]) g).

Definition after_call (c : Call) (g : Glue) : Glue :=
  with_calls (calls g ++ [c]) g.

(** ** Further readings of the state and of the record *)

(** The schema names the bus was asked to handle, in order. *)
Definition subscribedNames (cs : list Call) : list string :=
  flat_map (fun c => match c with
                     | CallBusHandleMessage m => [SchemaName m]
                     | CallBusHandleEvent _ _ m => [SchemaName m]
                     | _ => []
                     end) cs.

(** No schema name was subscribed twice, and every subscribed name is in
    the registered set. *)
Definition subscribedOnce (g : Glue) : Prop :=
  NoDup (subscribedNames (calls g)) /\
  forall name, name ∈ subscribedNames (calls g) -> is_Some (alreadyRegistred g !! name).

(** Every Def listed in the index is a registered Def, and it is listed
    only under names its handler table covers. *)
Definition indexSound (g : Glue) : Prop :=
  forall k d, indexed g k d -> d ∈ sagaDefs g /\ k ∈ getHandledMessages d.

(** The registration side of the glue is the same in both states. *)
Definition sameRegistry (g g' : Glue) : Prop :=
  svcName g' = svcName g /\ bus g' = bus g /\ sagaDefs g' = sagaDefs g /\
  alreadyRegistred g' = alreadyRegistred g /\ msgToDefMap g' = msgToDefMap g.

(** The calls a dispatch in transaction [tx] may issue: lookups,
    updates, deletes and clearings of timeouts in [tx], invocations of
    handlers and, when [creating], saves and registrations of timeouts
    in [tx]. *)
Definition dispatchCall (tx : TxHandle) (creating : bool) (c : Call) : bool :=
  match c with
  | CallGetSagaByID tx' _ | CallGetSagasByType tx' _
  | CallUpdateSaga tx' _ | CallDeleteSaga tx' _
  | CallClearTimeout tx' _ => Nat.eqb tx' tx
  | CallSaveNewSaga tx' _ _ | CallRegisterTimeout tx' _ _ => creating && Nat.eqb tx' tx
  | CallInvoke _ _ _ _ _ => true
  | _ => false
  end.

(** The calls the firing of a timeout in transaction [tx] may issue. *)
Definition timeoutCall (tx : TxHandle) (c : Call) : bool :=
  match c with
  | CallGetSagaByID tx' _ | CallUpdateSaga tx' _ | CallDeleteSaga tx' _
  | CallClearTimeout tx' _ | CallTimeout _ tx' => Nat.eqb tx' tx
  | CallSagaTimeoutCounterInc => true
  | _ => false
  end.

(** From [g] to [g'] the registration side is kept, only calls that
    [allowed] admits were issued, and, unless [creating], no instance
    was constructed. *)
Definition frame (allowed : Call -> bool) (creating : bool) (g g' : Glue) : Prop :=
  sameRegistry g g' /\
  (exists cs, calls g' = calls g ++ cs /\ forallb allowed cs = true) /\
  (creating = false -> created g' = created g).

(** A subscription call on the bus. *)
Definition isBusCall (c : Call) : bool :=
  match c with
  | CallBusHandleMessage _ | CallBusHandleEvent _ _ _ => true
  | _ => false
  end.

(** From [g] to [g'] only the bus, the registered set and the record
    changed, and the record grew by subscription calls only. *)
Definition busStep (g g' : Glue) : Prop :=
  svcName g' = svcName g /\ sagaDefs g' = sagaDefs g /\
  msgToDefMap g' = msgToDefMap g /\ sagaStore g' = sagaStore g /\
  timeoutManager g' = timeoutManager g /\ created g' = created g /\
  exists cs, calls g' = calls g ++ cs /\ forallb isBusCall cs = true.

(** ** The paths of [SagaHandler], unfolded *)

(** The correlated dispatch of one Def: what it returns and the state it
    leaves. *)
Definition correlatedDispatch (def : Def) (invocation : Invocation.t)
    (message : BusMessage.t) (g : Glue) : option error * Glue :=
  let tx := Invocation.Tx invocation in
  let sagaID := BusMessage.SagaCorrelationID message in
  let fetched := GetSagaByID (sagaStore g) tx sagaID in
  let g1 := after_store_call (CallGetSagaByID tx sagaID) (snd fetched) g in
  match fst fetched with
  | (_, Some getErr) => (Some getErr, g1)
  | (None, None) => (None, g1)
  | (Some instance, None) =>
      let configured := configureSaga def instance in
      let g2 := after_call (invokeCall (svcName g) configured invocation message) g1 in
      match invokeResult (svcName g) configured invocation message with
      | (_, Some invkErr) => (Some invkErr, g2)
      | (instance', None) => completeOrUpdateSaga tx instance' g2
      end
  end.

(** The instance [handleNewSaga] constructs in state [g]: the fresh
    instance of the Def with its causation fields stamped. *)
Definition stampedInstance (def : Def) (invocation : Invocation.t)
    (message : BusMessage.t) (g : Glue) : Instance :=
  let fresh := fst (newInstance def g) in
  mkInstance (ID fresh)
             (Invocation.InvokingSvc invocation)
             (BusMessage.SagaID message)
             (BusMessage.RPCID message)
             (BusMessage.ID message)
             (UnderlyingInstance fresh).

End Glue.

Arguments invokeResult : simpl never.
Arguments invokeCall : simpl never.
Arguments configureSaga : simpl never.
Arguments completeOrUpdateSaga : simpl never.
Arguments handleNewSaga : simpl never.

(** ** A small concrete installation

    An order saga, an in-memory store, timeout manager and bus.  They
    give the properties below concrete inputs to be evaluated on. *)

Module OrderExample.

(** The saga value: its type, the messages that start it, the messages
    it handles, and its business state ([paid] completes it, a [broken]
    saga fails in every handler). *)
Record OrderSaga : Type := mkOrderSaga {
  typ : SagaType;
  starts : list string;
  handles : list string;
  paid : bool;
  broken : bool;
  deadline : option Duration
}.

(** Ids are generated as [saga-], [saga-i], [saga-ii], ... *)
Fixpoint tally (n : nat) : string :=
  match n with
  | O => ""
  | S k => String "i" (tally k)
  end.

Definition pay (saga : OrderSaga) : OrderSaga :=
  mkOrderSaga (typ saga) (starts saga) (handles saga) true (broken saga) (deadline saga).

#[export] Instance OrderLogic : SagaLogic (Saga := OrderSaga) := {|
  TypeOf := typ;
  Saga_New := fun ty => mkOrderSaga ty [] [] false false None;
  Saga_StartedBy := fun saga => map mkMessage (starts saga);
  Saga_RegisterAllHandlers :=
    fun saga => map (fun name => AskHandleMessage (mkMessage name) "Handle") (handles saga);
  Saga_Handle := fun saga _ _ _ message =>
    if broken saga then (saga, Some (errorString "handler failed"))
    else if String.eqb (BusMessage.PayloadFQN message) "OrderPaid" then (pay saga, None)
    else (saga, None);
  Saga_IsComplete := paid;
  Saga_TimeoutDuration := deadline;
  Saga_Timeout := fun saga _ =>
    if broken saga then (saga, Some (errorString "timeout handler failed"))
    else (pay saga, None);
  newID := fun n => "saga-" +:+ tally n
|}.

(** The store: rows of saga type and instance.  [sentinelOnMiss] selects
    how a lookup by id reports that no row has the id: with the sentinel
    [ErrInstanceNotFound], or with a nil instance and a nil error. *)
Record MemStore : Type := mkMemStore {
  rows : list (SagaType * Instance (Saga := OrderSaga));
  sentinelOnMiss : bool;
  prepared : list SagaType
}.

Definition hasID (sagaID : string) (row : SagaType * Instance (Saga := OrderSaga)) : bool :=
  String.eqb (ID (snd row)) sagaID.

#[export] Instance MemStoreOps : Store (Saga := OrderSaga) MemStore := {|
  RegisterSagaType := fun st saga =>
    mkMemStore (rows st) (sentinelOnMiss st) (prepared st ++ [typ saga]);
  SaveNewSaga := fun st _ ty instance =>
    (None, mkMemStore (rows st ++ [(ty, instance)]) (sentinelOnMiss st) (prepared st));
  GetSagaByID := fun st _ sagaID =>
    match List.find (hasID sagaID) (rows st) with
    | Some row => ((Some (snd row), None), st)
    | None =>
        if sentinelOnMiss st then ((None, Some ErrInstanceNotFound), st)
        else ((None, None), st)
    end;
  GetSagasByType := fun st _ ty =>
    ((map snd (List.filter (fun row => String.eqb (fst row) ty) (rows st)), None), st);
  UpdateSaga := fun st _ instance =>
    (None,
     mkMemStore
       (map (fun row => if hasID (ID instance) row then (fst row, instance) else row) (rows st))
       (sentinelOnMiss st) (prepared st));
  DeleteSaga := fun st _ instance =>
    (None,
     mkMemStore (List.filter (fun row => negb (hasID (ID instance) row)) (rows st))
                (sentinelOnMiss st) (prepared st))
|}.

(** The timeout manager: the pending timeouts; [clearFails] makes every
    [ClearTimeout] fail. *)
Record MemTimeouts : Type := mkMemTimeouts {
  pending : list (string * Duration);
  clearFails : bool
}.

#[export] Instance MemTimeoutsOps : TimeoutManager MemTimeouts := {|
  RegisterTimeout := fun tm _ sagaID duration =>
    (None, mkMemTimeouts (pending tm ++ [(sagaID, duration)]) (clearFails tm));
  ClearTimeout := fun tm _ sagaID =>
    if clearFails tm then (Some (errorString "clear timeout failed"), tm)
    else
      (None,
       mkMemTimeouts (List.filter (fun p => negb (String.eqb (fst p) sagaID)) (pending tm))
                     (clearFails tm))
|}.

(** The bus: the schema names subscribed so far. *)
#[export] Instance MemBusOps : Bus (list string) := {|
  HandleMessage := fun subscribed message => (None, subscribed ++ [SchemaName message]);
  HandleEvent := fun subscribed _ _ event => (None, subscribed ++ [SchemaName event])
|}.

Definition ExGlue : Type :=
  Glue (Saga := OrderSaga) (StoreS := MemStore) (TimerS := MemTimeouts) (BusS := list string).

(** [NewGlue] on an empty store. *)
Definition emptyGlue (sentinel : bool) : ExGlue :=
  mkGlue "orders" [] [] ∅ ∅ (mkMemStore [] sentinel []) (mkMemTimeouts [] false) [] 0.

(** The saga of the end-to-end scenarios: started by [OrderCreated], it
    also handles [OrderPaid] and [OrderShipped]. *)
Definition orderSaga : OrderSaga :=
  mkOrderSaga "*OrderSaga" ["OrderCreated"] ["OrderCreated"; "OrderPaid"; "OrderShipped"]
              false false None.

(** A second saga type, started by [OrderPaid]. *)
Definition invoiceSaga : OrderSaga :=
  mkOrderSaga "*InvoiceSaga" ["OrderPaid"] ["OrderPaid"] false false None.

Definition registered (sentinel : bool) : ExGlue :=
  snd (RegisterSaga orderSaga [] (emptyGlue sentinel)).

Definition registeredBoth (sentinel : bool) : ExGlue :=
  snd (RegisterSaga invoiceSaga [] (registered sentinel)).

Definition invocation : Invocation.t := Invocation.mk "billing" 7 ("", "orders").

Definition envelope (name correlation : string) (semantics : Semantics) : BusMessage.t :=
  BusMessage.mk "msg-1" "saga-origin" correlation "rpc-1" semantics name.

(** Stored instances of the order saga. *)
Definition stored (sagaID : string) (isBroken : bool) : Instance (Saga := OrderSaga) :=
  mkInstance sagaID "billing" "" "" ""
    (mkOrderSaga "*OrderSaga" [] [] false isBroken None).

Definition with_rows (rs : list (Instance (Saga := OrderSaga))) (g : ExGlue) : ExGlue :=
  with_sagaStore
    (mkMemStore (map (fun i => ("*OrderSaga", i)) rs)
                (sentinelOnMiss (sagaStore g)) (prepared (sagaStore g))) g.

(** The Defs that the two registrations build. *)
Definition handledAs (name : string) : MsgToFuncPair :=
  mkMsgToFuncPair (mkMessageFilter "" "orders" name) "Handle".

Definition orderDef : Def (Saga := OrderSaga) :=
  mkDef "*OrderSaga" [] ["OrderCreated"]
        [handledAs "ordercreated"; handledAs "orderpaid"; handledAs "ordershipped"].

Definition invoiceDef : Def (Saga := OrderSaga) :=
  mkDef "*InvoiceSaga" [] ["OrderPaid"] [handledAs "orderpaid"].

(** Messages: an event that starts the order saga, a message correlated
    to an id no row has, and an event sent to every order saga. *)
Definition orderCreated : BusMessage.t := envelope "OrderCreated" "" EVT.
Definition orderPaidUnknown : BusMessage.t := envelope "OrderPaid" "unknown" EVT.
Definition orderPaid : BusMessage.t := envelope "OrderPaid" "" EVT.
Definition orderShipped : BusMessage.t := envelope "OrderShipped" "" EVT.

(** Two stored order sagas; the handler of the first, or of the second,
    fails. *)
Definition firstBroken : ExGlue :=
  with_rows [stored "a" true; stored "b" false] (registered false).
Definition secondBroken : ExGlue :=
  with_rows [stored "a" false; stored "b" true] (registered false).

(** A stored order saga that is already paid, hence complete. *)
Definition storedPaid (sagaID : string) : Instance (Saga := OrderSaga) :=
  mkInstance sagaID "billing" "" "" ""
    (mkOrderSaga "*OrderSaga" [] [] true false None).

End OrderExample.

(** * Properties *)

Section GlueProperties.

Context {Saga : Type} `{!SagaLogic (Saga := Saga)}.
Context {StoreS : Type} `{!Store (Saga := Saga) StoreS}.
Context {TimerS : Type} `{!TimeoutManager TimerS}.
Context {BusS : Type} `{!Bus BusS}.

Implicit Types (g : Glue (Saga := Saga) (StoreS := StoreS) (TimerS := TimerS) (BusS := BusS)).
Implicit Types (def : Def (Saga := Saga)) (instance : Instance (Saga := Saga)).
Implicit Types (invocation : Invocation.t) (message : BusMessage.t).
Implicit Types (tx : TxHandle) (sagaID : string).
Implicit Types (c : Call (Saga := Saga)) (cs tail : list (Call (Saga := Saga))).
Implicit Types (instances : list (Instance (Saga := Saga))).

(** ** The calls on the collaborators, as equations *)

Lemma sagaStore_GetSagaByID_eq tx sagaID g :
  sagaStore_GetSagaByID tx sagaID g =
    (fst (GetSagaByID (sagaStore g) tx sagaID),
     after_store_call (CallGetSagaByID tx sagaID)
       (snd (GetSagaByID (sagaStore g) tx sagaID)) g).
Proof.
  unfold sagaStore_GetSagaByID, bind, record_call. simpl.
  destruct (GetSagaByID (sagaStore g) tx sagaID). reflexivity.
Qed.

Lemma sagaStore_GetSagasByType_eq tx ty g :
  sagaStore_GetSagasByType tx ty g =
    (fst (GetSagasByType (sagaStore g) tx ty),
     after_store_call (CallGetSagasByType tx ty)
       (snd (GetSagasByType (sagaStore g) tx ty)) g).
Proof.
  unfold sagaStore_GetSagasByType, bind, record_call. simpl.
  destruct (GetSagasByType (sagaStore g) tx ty). reflexivity.
Qed.

Lemma sagaStore_UpdateSaga_eq tx instance g :
  sagaStore_UpdateSaga tx instance g =
    (fst (UpdateSaga (sagaStore g) tx instance),
     after_store_call (CallUpdateSaga tx instance)
       (snd (UpdateSaga (sagaStore g) tx instance)) g).
Proof.
  unfold sagaStore_UpdateSaga, bind, record_call. simpl.
  destruct (UpdateSaga (sagaStore g) tx instance). reflexivity.
Qed.

Lemma sagaStore_DeleteSaga_eq tx instance g :
  sagaStore_DeleteSaga tx instance g =
    (fst (DeleteSaga (sagaStore g) tx instance),
     after_store_call (CallDeleteSaga tx instance)
       (snd (DeleteSaga (sagaStore g) tx instance)) g).
Proof.
  unfold sagaStore_DeleteSaga, bind, record_call. simpl.
  destruct (DeleteSaga (sagaStore g) tx instance). reflexivity.
Qed.

Lemma sagaStore_SaveNewSaga_eq tx ty instance g :
  sagaStore_SaveNewSaga tx ty instance g =
    (fst (SaveNewSaga (sagaStore g) tx ty instance),
     after_store_call (CallSaveNewSaga tx ty instance)
       (snd (SaveNewSaga (sagaStore g) tx ty instance)) g).
Proof.
  unfold sagaStore_SaveNewSaga, bind, record_call. simpl.
  destruct (SaveNewSaga (sagaStore g) tx ty instance). reflexivity.
Qed.

Lemma timeoutManager_ClearTimeout_eq tx sagaID g :
  timeoutManager_ClearTimeout tx sagaID g =
    (fst (ClearTimeout (timeoutManager g) tx sagaID),
     after_timer_call (CallClearTimeout tx sagaID)
       (snd (ClearTimeout (timeoutManager g) tx sagaID)) g).
Proof.
  unfold timeoutManager_ClearTimeout, bind, record_call. simpl.
  destruct (ClearTimeout (timeoutManager g) tx sagaID). reflexivity.
Qed.

Lemma timeoutManager_RegisterTimeout_eq tx sagaID duration g :
  timeoutManager_RegisterTimeout tx sagaID duration g =
    (fst (RegisterTimeout (timeoutManager g) tx sagaID duration),
     after_timer_call (CallRegisterTimeout tx sagaID duration)
       (snd (RegisterTimeout (timeoutManager g) tx sagaID duration)) g).
Proof.
  unfold timeoutManager_RegisterTimeout, bind, record_call. simpl.
  destruct (RegisterTimeout (timeoutManager g) tx sagaID duration). reflexivity.
Qed.

Lemma invokeSagaInstance_eq def instance invocation message g :
  invokeSagaInstance def instance invocation message g =
    (invokeResult (svcName g) instance invocation message,
     after_call (invokeCall (svcName g) instance invocation message) g).
Proof.
  unfold invokeSagaInstance, invokeResult, invokeCall, sagaInvocationOf,
    Instance_invoke, bind, record_call, ret.
  destruct (Invocation.Routing invocation) as [exchange routingKey]. simpl.
  destruct (Saga_Handle _ _ _ _ _). reflexivity.
Qed.

Lemma Instance_timeout_eq instance tx g :
  Instance_timeout instance tx g =
    ((with_UnderlyingInstance (fst (Saga_Timeout (UnderlyingInstance instance) tx)) instance,
      snd (Saga_Timeout (UnderlyingInstance instance) tx)),
     after_call (CallTimeout instance tx) g).
Proof.
  unfold Instance_timeout, bind, record_call, ret. simpl.
  destruct (Saga_Timeout _ _). reflexivity.
Qed.

Lemma issued_app g g' cs :
  calls g' = calls g ++ cs -> issued g g' = cs.
Proof.
  intros Hcalls. unfold issued. rewrite Hcalls. apply drop_app_length.
Qed.

(** ** Reconciliation *)

(** What [completeOrUpdateSaga] returns and the state it leaves, by
    cases on the instance and on the answers of the collaborators. *)
Lemma completeOrUpdateSaga_eq tx instance g :
  completeOrUpdateSaga tx instance g =
    if isComplete instance then
      let deleted := DeleteSaga (sagaStore g) tx instance in
      let g1 := after_store_call (CallDeleteSaga tx instance) (snd deleted) g in
      match fst deleted with
      | Some deleteErr => (Some deleteErr, g1)
      | None =>
          let cleared := ClearTimeout (timeoutManager g) tx (ID instance) in
          (fst cleared,
           after_timer_call (CallClearTimeout tx (ID instance)) (snd cleared) g1)
      end
    else
      let updated := UpdateSaga (sagaStore g) tx instance in
      (fst updated, after_store_call (CallUpdateSaga tx instance) (snd updated) g).
Proof.
  unfold completeOrUpdateSaga. destruct (isComplete instance).
  - unfold bind. rewrite sagaStore_DeleteSaga_eq. simpl.
    destruct (fst (DeleteSaga (sagaStore g) tx instance)); [reflexivity|].
    rewrite timeoutManager_ClearTimeout_eq. reflexivity.
  - apply sagaStore_UpdateSaga_eq.
Qed.

(** The calls of a reconciliation are an initial part of
    [reconcileCalls], the whole of it when the reconciliation succeeds;
    the service name, the Defs and the index are left as they were. *)
Lemma completeOrUpdateSaga_calls tx instance g :
  exists cs,
    calls (snd (completeOrUpdateSaga tx instance g)) = calls g ++ cs /\
    cs `prefix_of` reconcileCalls tx instance /\
    cs <> [] /\
    (fst (completeOrUpdateSaga tx instance g) = None -> cs = reconcileCalls tx instance) /\
    svcName (snd (completeOrUpdateSaga tx instance g)) = svcName g.
Proof.
  rewrite completeOrUpdateSaga_eq. unfold reconcileCalls.
  destruct (isComplete instance); simpl.
  - destruct (fst (DeleteSaga (sagaStore g) tx instance)); simpl.
    + exists [CallDeleteSaga tx instance]. repeat split; try done.
      by exists [CallClearTimeout tx (ID instance)].
    + exists [CallDeleteSaga tx instance; CallClearTimeout tx (ID instance)].
      rewrite <- app_assoc. repeat split; done.
  - exists [CallUpdateSaga tx instance]. repeat split; done.
Qed.

(** C4. [completeOrUpdateSaga] on an instance that reports itself
    complete issues [DeleteSaga] and, when the delete succeeded,
    [ClearTimeout] for the id of the instance; it returns the error of
    the delete, else the result of the clearing, and issues no
    [UpdateSaga].  On an instance that is not complete it issues exactly
    one call, [UpdateSaga], returns its result, and issues neither
    [DeleteSaga] nor [ClearTimeout]. *)
Theorem completeOrUpdateSaga_deletes_or_updates tx instance g :
  (isComplete instance = true ->
     let deleted := DeleteSaga (sagaStore g) tx instance in
     let cleared := ClearTimeout (timeoutManager g) tx (ID instance) in
     let g' := snd (completeOrUpdateSaga tx instance g) in
     (forall deleteErr, fst deleted = Some deleteErr ->
        fst (completeOrUpdateSaga tx instance g) = Some deleteErr /\
        issued g g' = [CallDeleteSaga tx instance] /\
        sagaStore g' = snd deleted /\ timeoutManager g' = timeoutManager g) /\
     (fst deleted = None ->
        fst (completeOrUpdateSaga tx instance g) = fst cleared /\
        issued g g' = [CallDeleteSaga tx instance; CallClearTimeout tx (ID instance)] /\
        sagaStore g' = snd deleted /\ timeoutManager g' = snd cleared) /\
     (forall tx' i, CallUpdateSaga tx' i ∉ issued g g')) /\
  (isComplete instance = false ->
     let updated := UpdateSaga (sagaStore g) tx instance in
     let g' := snd (completeOrUpdateSaga tx instance g) in
     fst (completeOrUpdateSaga tx instance g) = fst updated /\
     issued g g' = [CallUpdateSaga tx instance] /\
     sagaStore g' = snd updated /\ timeoutManager g' = timeoutManager g).
Proof.
  rewrite completeOrUpdateSaga_eq. split; intros Hc; rewrite Hc; simpl.
  - split; [|split].
    + intros deleteErr Hd. rewrite Hd. simpl.
      split; [done|]. split; [|done]. by apply issued_app.
    + intros Hd. rewrite Hd. simpl.
      split; [done|]. split; [|done]. apply issued_app. simpl.
      by rewrite <- app_assoc.
    + intros tx' i. destruct (fst (DeleteSaga (sagaStore g) tx instance)); simpl.
      * erewrite issued_app by reflexivity.
        apply not_elem_of_cons. split; [discriminate|apply not_elem_of_nil].
      * erewrite issued_app by (simpl; rewrite <- app_assoc; reflexivity).
        simpl. rewrite !not_elem_of_cons.
        repeat split; try discriminate. apply not_elem_of_nil.
  - split; [done|]. split; [|done]. by apply issued_app.
Qed.

(** ** The four branches of the loop of [SagaHandler] *)

Lemma handleDefs_start def rest invocation message g :
  shouldStartNewSaga def message = true ->
  handleDefs invocation message (def :: rest) g = handleNewSaga def invocation message g.
Proof. intros Hstart. simpl. by rewrite Hstart. Qed.

Lemma handleDefs_correlated def rest invocation message g :
  shouldStartNewSaga def message = false ->
  BusMessage.SagaCorrelationID message <> "" ->
  handleDefs invocation message (def :: rest) g =
    correlatedDispatch def invocation message g.
Proof.
  intros Hstart Hcorr. simpl. rewrite Hstart.
  apply String.eqb_neq in Hcorr. rewrite Hcorr. simpl.
  unfold bind, correlatedDispatch. rewrite sagaStore_GetSagaByID_eq. cbn [fst snd].
  destruct (fst (GetSagaByID _ _ _)) as [[instance|] [getErr|]]; try reflexivity.
  rewrite invokeSagaInstance_eq. cbn [fst snd].
  destruct (invokeResult _ _ _ _) as [instance' [invkErr|]]; reflexivity.
Qed.

Lemma handleDefs_command def rest invocation message g :
  shouldStartNewSaga def message = false ->
  BusMessage.SagaCorrelationID message = "" ->
  BusMessage.Semantics message = CMD ->
  handleDefs invocation message (def :: rest) g =
    (Some (errorString "can not resolve saga instance for message"), g).
Proof.
  intros Hstart Hcorr Hcmd. simpl. rewrite Hstart, Hcorr, Hcmd. reflexivity.
Qed.

Lemma handleDefs_fan_out def rest invocation message g :
  shouldStartNewSaga def message = false ->
  BusMessage.SagaCorrelationID message = "" ->
  BusMessage.Semantics message <> CMD ->
  handleDefs invocation message (def :: rest) g =
    let tx := Invocation.Tx invocation in
    let fetched := GetSagasByType (sagaStore g) tx (sagaType def) in
    let g1 := after_store_call (CallGetSagasByType tx (sagaType def)) (snd fetched) g in
    match fst fetched with
    | (_, Some e) => (Some e, g1)
    | (instances, None) =>
        match invokeInstances def invocation message instances g1 with
        | (Some e, g2) => (Some e, g2)
        | (None, g2) => handleDefs invocation message rest g2
        end
    end.
Proof.
  intros Hstart Hcorr Hevt. simpl. rewrite Hstart, Hcorr. simpl.
  assert (Semantics_eqb (BusMessage.Semantics message) CMD = false) as ->
    by (destruct (BusMessage.Semantics message); done).
  unfold bind. rewrite sagaStore_GetSagasByType_eq. simpl.
  destruct (fst (GetSagasByType _ _ _)) as [instances [e|]]; [reflexivity|].
  destruct (invokeInstances _ _ _ _ _) as [[e|] g2]; reflexivity.
Qed.

(** The correlated dispatch issues no save; it issues an update or a
    delete only after it has invoked an instance. *)
Lemma correlatedDispatch_absent def invocation message g :
  fst (fst (GetSagaByID (sagaStore g) (Invocation.Tx invocation)
              (BusMessage.SagaCorrelationID message))) = None ->
  issued g (snd (correlatedDispatch def invocation message g)) =
    [CallGetSagaByID (Invocation.Tx invocation) (BusMessage.SagaCorrelationID message)] /\
  sagaStore (snd (correlatedDispatch def invocation message g)) =
    snd (GetSagaByID (sagaStore g) (Invocation.Tx invocation)
           (BusMessage.SagaCorrelationID message)) /\
  timeoutManager (snd (correlatedDispatch def invocation message g)) = timeoutManager g /\
  fst (correlatedDispatch def invocation message g) =
    snd (fst (GetSagaByID (sagaStore g) (Invocation.Tx invocation)
                (BusMessage.SagaCorrelationID message))).
Proof.
  intros Hnone. unfold correlatedDispatch.
  destruct (fst (GetSagaByID _ _ _)) as [[instance|] [getErr|]]; simpl in *;
    try discriminate; (split; [by apply issued_app|done]).
Qed.

(** ** The sentinel in the correlated dispatch (C9) *)

(** C9. In the correlated dispatch, [SagaHandler] takes the instance
    for absent, and returns success, when [GetSagaByID] returns a nil
    instance together with a nil error.  Every error of the lookup is
    returned as the error of the dispatch; in particular, when the store
    reports the absence with the sentinel [ErrInstanceNotFound],
    [SagaHandler] returns the sentinel as its error, whereas
    [TimeoutSaga] on the same answer of the store returns success. *)
Theorem SagaHandler_propagates_not_found_sentinel def rest invocation message g :
  resolveDefs g message = def :: rest ->
  shouldStartNewSaga def message = false ->
  BusMessage.SagaCorrelationID message <> "" ->
  let tx := Invocation.Tx invocation in
  let sagaID := BusMessage.SagaCorrelationID message in
  let fetched := fst (GetSagaByID (sagaStore g) tx sagaID) in
  (fetched = (None, None) ->
     fst (SagaHandler invocation message g) = None) /\
  (forall found getErr, fetched = (found, Some getErr) ->
     fst (SagaHandler invocation message g) = Some getErr) /\
  (forall found, fetched = (found, Some ErrInstanceNotFound) ->
     fst (SagaHandler invocation message g) = Some ErrInstanceNotFound /\
     fst (TimeoutSaga tx sagaID g) = Returned None).
Proof.
  intros Hdefs Hstart Hcorr tx sagaID fetched.
  unfold SagaHandler. rewrite Hdefs.
  rewrite handleDefs_correlated by done.
  unfold correlatedDispatch. fold tx sagaID fetched. split; [|split].
  - intros ->. reflexivity.
  - intros found getErr ->. by destruct found.
  - intros found Hfetched. rewrite Hfetched. split; [by destruct found|].
    unfold TimeoutSaga, bind. rewrite sagaStore_GetSagaByID_eq. simpl.
    fold fetched. rewrite Hfetched. reflexivity.
Qed.

(** ** Which Def ends the call (C10) *)

(** C10. For a message that does not start the first Def indexed under
    its name: with a correlation id, the call ends in the correlated
    dispatch of that Def, whatever the lookup, the invocation and the
    reconciliation give, and the Defs after it play no part (the result
    and the final state are those of the list reduced to that Def);
    without a correlation id a command ends the call with an error and
    no call issued; only the event fan-out, when it ran without error,
    goes on with the Defs after it. *)
Theorem SagaHandler_only_fan_out_continues def rest invocation message g :
  resolveDefs g message = def :: rest ->
  shouldStartNewSaga def message = false ->
  (BusMessage.SagaCorrelationID message <> "" ->
     SagaHandler invocation message g = handleDefs invocation message [def] g /\
     SagaHandler invocation message g = correlatedDispatch def invocation message g) /\
  (BusMessage.SagaCorrelationID message = "" ->
   BusMessage.Semantics message = CMD ->
     SagaHandler invocation message g =
       (Some (errorString "can not resolve saga instance for message"), g)) /\
  (BusMessage.SagaCorrelationID message = "" ->
   BusMessage.Semantics message <> CMD ->
     forall g1,
       handleDefs invocation message [def] g = (None, g1) ->
       SagaHandler invocation message g = handleDefs invocation message rest g1) /\
  (BusMessage.SagaCorrelationID message = "" ->
   BusMessage.Semantics message <> CMD ->
     forall e g1,
       handleDefs invocation message [def] g = (Some e, g1) ->
       SagaHandler invocation message g = (Some e, g1)).
Proof.
  intros Hdefs Hstart. unfold SagaHandler. rewrite Hdefs.
  split; [|split; [|split]].
  - intros Hcorr. by rewrite !handleDefs_correlated.
  - intros Hcorr Hcmd. by apply handleDefs_command.
  - intros Hcorr Hevt g1. rewrite !handleDefs_fan_out by done. simpl.
    destruct (fst (GetSagasByType _ _ _)) as [instances [e|]]; [discriminate|].
    destruct (invokeInstances _ _ _ _ _) as [[e|] g2]; [discriminate|].
    intros [= ->]. reflexivity.
  - intros Hcorr Hevt e g1. rewrite !handleDefs_fan_out by done. simpl.
    destruct (fst (GetSagasByType _ _ _)) as [instances [e'|]]; [done|].
    destruct (invokeInstances _ _ _ _ _) as [[e'|] g2]; [done|].
    discriminate.
Qed.

(** ** The event fan-out (C2) *)

Lemma invokeInstances_one def invocation message instance g :
  invokeInstances def invocation message [instance] g =
    let configured := configureSaga def instance in
    let g1 := after_call (invokeCall (svcName g) configured invocation message) g in
    match invokeResult (svcName g) configured invocation message with
    | (_, Some invkErr) => (Some invkErr, g1)
    | (instance', None) => completeOrUpdateSaga (Invocation.Tx invocation) instance' g1
    end.
Proof.
  cbn [invokeInstances]. unfold bind. rewrite invokeSagaInstance_eq. cbn [fst snd].
  destruct (invokeResult _ _ _ _) as [instance' [invkErr|]]; [reflexivity|].
  destruct (completeOrUpdateSaga _ _ _) as [[e|] g2]; reflexivity.
Qed.

Lemma invokeInstances_app def invocation message (l1 l2 : list Instance) g :
  invokeInstances def invocation message (l1 ++ l2) g =
    match invokeInstances def invocation message l1 g with
    | (Some e, g1) => (Some e, g1)
    | (None, g1) => invokeInstances def invocation message l2 g1
    end.
Proof.
  revert g. induction l1 as [|instance l1 IH]; intros g; [reflexivity|].
  cbn [app invokeInstances]. unfold bind. rewrite invokeSagaInstance_eq. cbn [fst snd].
  destruct (invokeResult _ _ _ _) as [instance' [invkErr|]]; [reflexivity|].
  destruct (completeOrUpdateSaga _ _ _) as [[e|] g2]; [reflexivity|].
  apply IH.
Qed.

Lemma invokeInstances_cons def invocation message instance (rest : list Instance) g :
  invokeInstances def invocation message (instance :: rest) g =
    match invokeInstances def invocation message [instance] g with
    | (Some e, g1) => (Some e, g1)
    | (None, g1) => invokeInstances def invocation message rest g1
    end.
Proof. apply (invokeInstances_app def invocation message [instance] rest). Qed.

(** A fan-out that stops with an error stops at some instance, every
    instance before it having gone through. *)
Lemma invokeInstances_stops def invocation message (instances : list Instance) g e g' :
  invokeInstances def invocation message instances g = (Some e, g') ->
  exists pre instance post g1,
    instances = pre ++ instance :: post /\
    invokeInstances def invocation message pre g = (None, g1) /\
    invokeInstances def invocation message [instance] g1 = (Some e, g').
Proof.
  revert g. induction instances as [|instance rest IH]; intros g; [discriminate|].
  rewrite invokeInstances_cons.
  destruct (invokeInstances def invocation message [instance] g) as [[e1|] g1] eqn:Hone.
  - intros [= -> ->]. exists [], instance, rest, g. by repeat split.
  - intros Hrest. destruct (IH _ Hrest) as (pre & failing & post & g2 & -> & Hpre & Hfail).
    exists (instance :: pre), failing, post, g2. repeat split; [|done].
    rewrite invokeInstances_cons, Hone. done.
Qed.

(** A round that goes through issues the calls of [fanOutRound]. *)
Lemma invokeInstances_one_ok def invocation message instance g g' :
  invokeInstances def invocation message [instance] g = (None, g') ->
  calls g' = calls g ++ fanOutRound (svcName g) def invocation message instance /\
  svcName g' = svcName g.
Proof.
  rewrite invokeInstances_one. cbn zeta. unfold fanOutRound.
  destruct (invokeResult _ _ _ _) as [instance' [invkErr|]]; [discriminate|].
  intros Hrec. cbn [fst].
  destruct (completeOrUpdateSaga_calls (Invocation.Tx invocation) instance'
              (after_call (invokeCall (svcName g) (configureSaga def instance)
                             invocation message) g))
    as (cs & Hcalls & _ & _ & Hall & Hsvc).
  rewrite Hrec in *. cbn [fst snd] in *. rewrite Hcalls, Hsvc, <- Hall by done.
  split; [|done]. simpl. by rewrite <- app_assoc.
Qed.

Lemma invokeInstances_ok def invocation message (instances : list Instance) g g' :
  invokeInstances def invocation message instances g = (None, g') ->
  calls g' = calls g ++ flat_map (fanOutRound (svcName g) def invocation message) instances /\
  svcName g' = svcName g.
Proof.
  revert g. induction instances as [|instance rest IH]; intros g.
  - intros [= <-]. simpl. by rewrite app_nil_r.
  - rewrite invokeInstances_cons.
    destruct (invokeInstances def invocation message [instance] g) as [[e1|] g1] eqn:Hone;
      [discriminate|].
    intros Hrest. apply invokeInstances_one_ok in Hone as [Hcalls1 Hsvc1].
    apply IH in Hrest as [Hcalls Hsvc]. rewrite Hcalls, Hcalls1, Hsvc, Hsvc1.
    split; [|done]. simpl. by rewrite <- app_assoc.
Qed.

(** What the round of the failing instance issues: the invocation and,
    when the handler returned without error, the calls of the
    reconciliation up to the one that failed. *)
Lemma invokeInstances_one_failed def invocation message instance g e g' :
  invokeInstances def invocation message [instance] g = (Some e, g') ->
  let configured := configureSaga def instance in
  let r := invokeResult (svcName g) configured invocation message in
  exists tail,
    calls g' = calls g ++ invokeCall (svcName g) configured invocation message :: tail /\
    (snd r = Some e /\ tail = [] \/
     snd r = None /\
     completeOrUpdateSaga (Invocation.Tx invocation) (fst r)
       (after_call (invokeCall (svcName g) configured invocation message) g) = (Some e, g') /\
     tail `prefix_of` reconcileCalls (Invocation.Tx invocation) (fst r) /\
     tail <> []).
Proof.
  rewrite invokeInstances_one. cbn zeta.
  destruct (invokeResult _ _ _ _) as [instance' [invkErr|]]; cbn [fst snd].
  - intros [= -> <-]. exists []. split; [done|]. by left.
  - intros Hrec.
    destruct (completeOrUpdateSaga_calls (Invocation.Tx invocation) instance'
                (after_call (invokeCall (svcName g) (configureSaga def instance)
                               invocation message) g))
      as (cs & Hcalls & Hprefix & Hne & _ & _).
    rewrite Hrec in Hcalls. cbn [snd] in Hcalls.
    exists cs. split; [|by right].
    rewrite Hcalls. simpl. by rewrite <- app_assoc.
Qed.

Lemma invokedInstances_app cs1 cs2 :
  invokedInstances (cs1 ++ cs2) = invokedInstances cs1 ++ invokedInstances cs2.
Proof. unfold invokedInstances. by rewrite flat_map_app. Qed.

Lemma reconciledInstances_app cs1 cs2 :
  reconciledInstances (cs1 ++ cs2) = reconciledInstances cs1 ++ reconciledInstances cs2.
Proof. unfold reconciledInstances. by rewrite flat_map_app. Qed.

Lemma invokedInstances_cons c cs :
  invokedInstances (c :: cs) = invokedInstances [c] ++ invokedInstances cs.
Proof. apply (invokedInstances_app [c] cs). Qed.

Lemma reconciledInstances_cons c cs :
  reconciledInstances (c :: cs) = reconciledInstances [c] ++ reconciledInstances cs.
Proof. apply (reconciledInstances_app [c] cs). Qed.

(** The initial parts of [reconcileCalls]. *)
Lemma prefix_of_reconcileCalls tx instance cs :
  cs `prefix_of` reconcileCalls tx instance ->
  cs = [] \/ cs = [CallDeleteSaga tx instance] \/
  cs = [CallDeleteSaga tx instance; CallClearTimeout tx (ID instance)] \/
  cs = [CallUpdateSaga tx instance].
Proof.
  intros [k Hk]. unfold reconcileCalls in Hk.
  destruct (isComplete instance);
    destruct cs as [|c1 [|c2 [|c3 cs]]]; simplify_eq/=; auto.
Qed.

Lemma invokedInstances_reconcile tx instance cs :
  cs `prefix_of` reconcileCalls tx instance -> invokedInstances cs = [].
Proof.
  intros Hp. apply prefix_of_reconcileCalls in Hp as [->|[->|[->| ->]]]; reflexivity.
Qed.

Lemma reconciledInstances_reconcile tx instance cs :
  cs `prefix_of` reconcileCalls tx instance -> cs <> [] ->
  reconciledInstances cs = [instance].
Proof.
  intros Hp Hne.
  apply prefix_of_reconcileCalls in Hp as [->|[->|[->| ->]]]; done.
Qed.

Lemma invokedInstances_rounds svc def invocation message (instances : list Instance) :
  invokedInstances (flat_map (fanOutRound svc def invocation message) instances) =
    map (configureSaga def) instances.
Proof.
  induction instances as [|instance rest IH]; [reflexivity|].
  cbn [flat_map map]. rewrite invokedInstances_app, IH. unfold fanOutRound.
  rewrite invokedInstances_cons.
  rewrite (invokedInstances_reconcile (Invocation.Tx invocation)
             (fst (invokeResult svc (configureSaga def instance) invocation message))
             (reconcileCalls _ _))
    by reflexivity.
  reflexivity.
Qed.

Lemma reconciledInstances_rounds svc def invocation message (instances : list Instance) :
  reconciledInstances (flat_map (fanOutRound svc def invocation message) instances) =
    map (fun instance => fst (invokeResult svc (configureSaga def instance) invocation message))
        instances.
Proof.
  induction instances as [|instance rest IH]; [reflexivity|].
  cbn [flat_map map]. rewrite reconciledInstances_app, IH. unfold fanOutRound.
  rewrite reconciledInstances_cons.
  rewrite (reconciledInstances_reconcile (Invocation.Tx invocation)
             (fst (invokeResult svc (configureSaga def instance) invocation message))
             (reconcileCalls _ _)).
  - reflexivity.
  - reflexivity.
  - unfold reconcileCalls. by destruct (isComplete _).
Qed.

(** C2 (amended). For an event-like message without correlation id
    that does not start the first Def indexed under its name,
    [SagaHandler] fetches the instances of the saga type of that Def
    and goes through them in the order the store returned them: the
    handler is invoked on the instance, then the instance is reconciled,
    then the next instance is taken.  When all rounds go through, the
    call goes on with the Defs that follow.  When the invocation or the
    reconciliation of an instance fails, [SagaHandler] returns that
    error at once: the instances before it have been invoked and
    reconciled, the failing instance has been invoked (and its
    reconciliation was started only if its invocation succeeded), and no
    instance after it is invoked or reconciled. *)
Theorem SagaHandler_event_fan_out def rest invocation message g instances :
  resolveDefs g message = def :: rest ->
  shouldStartNewSaga def message = false ->
  BusMessage.SagaCorrelationID message = "" ->
  BusMessage.Semantics message <> CMD ->
  fst (GetSagasByType (sagaStore g) (Invocation.Tx invocation) (sagaType def))
    = (instances, None) ->
  let tx := Invocation.Tx invocation in
  let configured := configureSaga def in
  let handled := fun instance =>
    fst (invokeResult (svcName g) (configured instance) invocation message) in
  let failure := fun instance =>
    snd (invokeResult (svcName g) (configured instance) invocation message) in
  let fetch := CallGetSagasByType tx (sagaType def) in
  let round := fanOutRound (svcName g) def invocation message in
  (exists g1,
     SagaHandler invocation message g = handleDefs invocation message rest g1 /\
     issued g g1 = fetch :: flat_map round instances /\
     invokedInstances (issued g g1) = map configured instances /\
     reconciledInstances (issued g g1) = map handled instances)
  \/
  (exists pre failing post e g2 tail,
     instances = pre ++ failing :: post /\
     SagaHandler invocation message g = (Some e, g2) /\
     issued g g2 =
       fetch :: flat_map round pre ++
       invokeCall (svcName g) (configured failing) invocation message :: tail /\
     (failure failing = Some e /\ tail = [] \/
      failure failing = None /\ tail <> [] /\
      tail `prefix_of` reconcileCalls tx (handled failing) /\
      exists g1, completeOrUpdateSaga tx (handled failing) g1 = (Some e, g2)) /\
     invokedInstances (issued g g2) = map configured (pre ++ [failing]) /\
     reconciledInstances (issued g g2) =
       map handled pre ++ match tail with [] => [] | _ => [handled failing] end).
Proof.
  intros Hdefs Hstart Hcorr Hevt Hfetched tx configured handled failure fetch round.
  unfold SagaHandler. rewrite Hdefs, handleDefs_fan_out by done. cbn zeta.
  rewrite Hfetched. fold tx fetch.
  set (g0 := after_store_call fetch _ g).
  assert (calls g0 = calls g ++ [fetch]) as Hcalls0 by reflexivity.
  assert (svcName g0 = svcName g) as Hsvc0 by reflexivity.
  destruct (invokeInstances def invocation message instances g0) as [[e|] g2] eqn:Hloop.
  - right.
    apply invokeInstances_stops in Hloop
      as (pre & failing & post & g1 & -> & Hpre & Hfail).
    apply invokeInstances_ok in Hpre as [Hcalls1 Hsvc1].
    apply invokeInstances_one_failed in Hfail as (tail & Hcalls2 & Hcases).
    rewrite Hsvc1, Hsvc0 in Hcalls2, Hcases. rewrite Hsvc0 in Hcalls1.
    fold tx in Hcases. fold round in Hcalls1.
    assert (issued g g2 =
              fetch :: flat_map round pre ++
              invokeCall (svcName g) (configured failing) invocation message :: tail)
      as Hissued.
    { apply issued_app. rewrite Hcalls2, Hcalls1, Hcalls0.
      rewrite <- !app_assoc. reflexivity. }
    exists pre, failing, post, e, g2, tail.
    split; [done|]. split; [done|]. split; [done|]. split; [|split].
    + destruct Hcases as [[Hinv ->]|(Hinv & Hrec & Hprefix & Hne)]; [by left|].
      right. repeat split; try done. eexists. exact Hrec.
    + rewrite Hissued, (invokedInstances_cons fetch), invokedInstances_app,
        (invokedInstances_cons (invokeCall _ _ _ _) tail).
      unfold round. rewrite invokedInstances_rounds, map_app.
      assert (invokedInstances tail = []) as ->.
      { destruct Hcases as [[_ ->]|(_ & _ & Hprefix & _)]; [done|].
        by eapply invokedInstances_reconcile. }
      reflexivity.
    + rewrite Hissued, (reconciledInstances_cons fetch), reconciledInstances_app,
        (reconciledInstances_cons (invokeCall _ _ _ _) tail).
      unfold round. rewrite reconciledInstances_rounds.
      destruct Hcases as [[_ ->]|(_ & _ & Hprefix & Hne)]; [reflexivity|].
      rewrite (reconciledInstances_reconcile tx (handled failing) tail) by done.
      destruct tail; done.
  - left. exists g2. split; [done|].
    apply invokeInstances_ok in Hloop as [Hcalls1 _]. rewrite Hsvc0 in Hcalls1.
    fold round in Hcalls1.
    assert (issued g g2 = fetch :: flat_map round instances) as Hissued.
    { apply issued_app. rewrite Hcalls1, Hcalls0, <- app_assoc. reflexivity. }
    split; [done|]. rewrite Hissued. split.
    + rewrite invokedInstances_cons. unfold round.
      by rewrite invokedInstances_rounds.
    + rewrite reconciledInstances_cons. unfold round.
      by rewrite reconciledInstances_rounds.
Qed.

(** ** The creation path (C3) *)

Lemma handleNewSaga_eq def invocation message g :
  handleNewSaga def invocation message g =
    let tx := Invocation.Tx invocation in
    let stamped := stampedInstance def invocation message g in
    let g1 := after_call (invokeCall (svcName g) stamped invocation message)
                (with_created (S (created g)) g) in
    match invokeResult (svcName g) stamped invocation message with
    | (_, Some invkErr) => (Some invkErr, g1)
    | (after, None) =>
        if isComplete after then (None, g1)
        else
          let saved := SaveNewSaga (sagaStore g) tx (sagaType def) after in
          let g2 := after_store_call (CallSaveNewSaga tx (sagaType def) after)
                      (snd saved) g1 in
          match fst saved with
          | Some e => (Some e, g2)
          | None =>
              match Saga_TimeoutDuration (UnderlyingInstance after) with
              | Some duration =>
                  let registered :=
                    RegisterTimeout (timeoutManager g) tx (ID after) duration in
                  (fst registered,
                   after_timer_call (CallRegisterTimeout tx (ID after) duration)
                     (snd registered) g2)
              | None => (None, g2)
              end
          end
    end.
Proof.
  unfold handleNewSaga, bind, stampedInstance. cbn [newInstance fst snd].
  rewrite invokeSagaInstance_eq. cbn [fst snd].
  change (svcName (with_created _ g)) with (svcName g).
  destruct (invokeResult _ _ _ _) as [after [invkErr|]]; [reflexivity|].
  destruct (isComplete after); [reflexivity|]. cbn [negb].
  rewrite sagaStore_SaveNewSaga_eq. cbn [fst snd].
  change (sagaStore (after_call _ (with_created _ g))) with (sagaStore g).
  destruct (fst (SaveNewSaga _ _ _ _)) as [e|]; [reflexivity|].
  unfold requestsTimeout.
  destruct (Saga_TimeoutDuration _) as [duration|]; [|reflexivity].
  rewrite timeoutManager_RegisterTimeout_eq. cbn [fst snd].
  destruct (fst (RegisterTimeout _ _ _ _)) as [tme|]; reflexivity.
Qed.

(** The handler works on the saga of an instance only: id and causation
    fields of the instance it returns are those it was given. *)
Lemma invokeResult_keeps_fields svc instance invocation message :
  let after := fst (invokeResult svc instance invocation message) in
  ID after = ID instance /\
  StartedBy after = StartedBy instance /\
  StartedBySaga after = StartedBySaga instance /\
  StartedByRPCID after = StartedByRPCID instance /\
  StartedByMessageID after = StartedByMessageID instance.
Proof. unfold invokeResult. simpl. done. Qed.

(** C3. [handleNewSaga] constructs a fresh instance whose causation
    fields are the invoking service of the invocation and the [SagaID],
    [RPCID] and [ID] of the message, and invokes the handler on it.  If
    that invocation fails, its error is returned and nothing is issued
    on the store or on the timeout manager.  If it succeeds, the
    instance as the handler left it, causation fields unchanged, is
    saved as new exactly when it is not complete; a complete instance
    is neither saved nor deleted; no update or delete is ever issued. *)
Theorem handleNewSaga_saves_unless_complete def invocation message g :
  let tx := Invocation.Tx invocation in
  let stamped := stampedInstance def invocation message g in
  let after := fst (invokeResult (svcName g) stamped invocation message) in
  let invkErr := snd (invokeResult (svcName g) stamped invocation message) in
  let invoke := invokeCall (svcName g) stamped invocation message in
  let save := CallSaveNewSaga tx (sagaType def) after in
  let result := fst (handleNewSaga def invocation message g) in
  let g' := snd (handleNewSaga def invocation message g) in
  (StartedBy stamped = Invocation.InvokingSvc invocation /\
   StartedBySaga stamped = BusMessage.SagaID message /\
   StartedByRPCID stamped = BusMessage.RPCID message /\
   StartedByMessageID stamped = BusMessage.ID message) /\
  (StartedBy after = Invocation.InvokingSvc invocation /\
   StartedBySaga after = BusMessage.SagaID message /\
   StartedByRPCID after = BusMessage.RPCID message /\
   StartedByMessageID after = BusMessage.ID message) /\
  (exists cs, issued g g' = invoke :: cs /\ invokedInstances cs = []) /\
  (forall e, invkErr = Some e ->
     result = Some e /\ issued g g' = [invoke] /\
     sagaStore g' = sagaStore g /\ timeoutManager g' = timeoutManager g) /\
  (invkErr = None ->
     (save ∈ issued g g' <-> isComplete after = false) /\
     (isComplete after = true ->
        result = None /\ issued g g' = [invoke] /\
        sagaStore g' = sagaStore g /\ timeoutManager g' = timeoutManager g) /\
     (isComplete after = false ->
        exists cs, issued g g' = invoke :: save :: cs /\
          forall c, c ∈ cs -> exists duration, c = CallRegisterTimeout tx (ID after) duration)) /\
  (forall c, c ∈ issued g g' -> isPersistenceMutation c = true -> c = save).
Proof.
  intros tx stamped after invkErr invoke save result g'.
  split; [done|]. split; [done|].
  subst result g'. rewrite handleNewSaga_eq. cbn zeta.
  fold tx stamped invoke. subst after invkErr save.
  destruct (invokeResult (svcName g) stamped invocation message) as [after [e0|]];
    cbn [fst snd].
  { erewrite issued_app by reflexivity.
    split; [by exists []|]. split; [by intros e [= ->]|]. split; [done|].
    intros c Hc. apply list_elem_of_singleton in Hc as ->. discriminate. }
  set (save := CallSaveNewSaga tx (sagaType def) after).
  destruct (isComplete after) eqn:Hcomplete.
  { erewrite issued_app by reflexivity.
    split; [by exists []|]. split; [done|]. split.
    - intros _. split; [|split; [done|done]]. split; [|done].
      intros Hin. apply list_elem_of_singleton in Hin. discriminate.
    - intros c Hc. apply list_elem_of_singleton in Hc as ->. discriminate. }
  destruct (fst (SaveNewSaga (sagaStore g) tx (sagaType def) after)) as [e|];
    [|destruct (Saga_TimeoutDuration (UnderlyingInstance after)) as [duration|]];
    (erewrite issued_app by (simpl; rewrite <- ?app_assoc; reflexivity));
    (split; [eexists; split; [reflexivity|reflexivity]|]);
    (split; [done|]);
    (split;
     [intros _; split; [split; [done|intros _; right; by left]|];
      split; [done|]; intros _; eexists; split; [reflexivity|];
      intros c Hc;
      repeat (apply elem_of_cons in Hc as [->|Hc]; [by eexists|]);
      by apply elem_of_nil in Hc
     |intros c Hc Hmut;
      repeat (apply elem_of_cons in Hc as [->|Hc]; [done || discriminate|]);
      by apply elem_of_nil in Hc]).
Qed.

(** ** Timeouts (C5) *)

Lemma TimeoutSaga_eq tx sagaID g :
  TimeoutSaga tx sagaID g =
    let fetched := GetSagaByID (sagaStore g) tx sagaID in
    let g1 := after_store_call (CallGetSagaByID tx sagaID) (snd fetched) g in
    match fst fetched with
    | (_, Some err) =>
        if error_is_sentinel err then (Returned None, g1) else (Returned (Some err), g1)
    | (None, None) => (Panicked, g1)
    | (Some saga, None) =>
        let fired := Saga_Timeout (UnderlyingInstance saga) tx in
        let g2 := after_call (CallTimeout saga tx) g1 in
        match snd fired with
        | Some timeoutErr => (Returned (Some timeoutErr), g2)
        | None =>
            let reconciled :=
              completeOrUpdateSaga tx (with_UnderlyingInstance (fst fired) saga)
                (after_call CallSagaTimeoutCounterInc g2) in
            (Returned (fst reconciled), snd reconciled)
        end
    end.
Proof.
  unfold TimeoutSaga, bind. rewrite sagaStore_GetSagaByID_eq. cbn [fst snd].
  destruct (fst (GetSagaByID _ _ _)) as [[saga|] [err|]];
    try (destruct (error_is_sentinel err); reflexivity); try reflexivity.
  rewrite Instance_timeout_eq. cbn [fst snd].
  destruct (snd (Saga_Timeout _ _)) as [timeoutErr|]; [reflexivity|].
  unfold record_call. cbn [fst snd].
  destruct (completeOrUpdateSaga _ _ _) as [e g3]. reflexivity.
Qed.

(** C5. [TimeoutSaga] on an id for which the fetch yields the
    sentinel [ErrInstanceNotFound] returns success, and apart from the
    lookup nothing is called and nothing changes; any other error of the
    fetch is returned.  For an instance that is found, the timeout
    handler of the saga is invoked exactly once; if it fails, its error
    is returned and the instance is not reconciled; otherwise the
    instance as the handler left it goes through [completeOrUpdateSaga],
    whose result is returned. *)
Theorem TimeoutSaga_not_found_is_success tx sagaID g :
  let fetched := GetSagaByID (sagaStore g) tx sagaID in
  let g1 := after_store_call (CallGetSagaByID tx sagaID) (snd fetched) g in
  (forall found, fst fetched = (found, Some ErrInstanceNotFound) ->
     TimeoutSaga tx sagaID g = (Returned None, g1) /\
     issued g g1 = [CallGetSagaByID tx sagaID] /\
     sagaStore g1 = snd fetched /\ timeoutManager g1 = timeoutManager g) /\
  (forall found err, fst fetched = (found, Some err) -> err <> ErrInstanceNotFound ->
     TimeoutSaga tx sagaID g = (Returned (Some err), g1)) /\
  (forall saga, fst fetched = (Some saga, None) ->
     let fired := Saga_Timeout (UnderlyingInstance saga) tx in
     let after := with_UnderlyingInstance (fst fired) saga in
     let g2 := after_call (CallTimeout saga tx) g1 in
     let g' := snd (TimeoutSaga tx sagaID g) in
     List.filter isBusinessCall (issued g g') = [CallTimeout saga tx] /\
     (forall timeoutErr, snd fired = Some timeoutErr ->
        TimeoutSaga tx sagaID g = (Returned (Some timeoutErr), g2) /\
        issued g g' = [CallGetSagaByID tx sagaID; CallTimeout saga tx]) /\
     (snd fired = None ->
        let reconciled :=
          completeOrUpdateSaga tx after (after_call CallSagaTimeoutCounterInc g2) in
        TimeoutSaga tx sagaID g = (Returned (fst reconciled), snd reconciled))).
Proof.
  intros fetched g1. rewrite TimeoutSaga_eq. cbn zeta. fold fetched g1.
  split; [|split].
  - intros found ->. split; [by destruct found|].
    split; [by apply issued_app|done].
  - intros found err -> Hne. by destruct found, err.
  - intros saga ->. cbn zeta.
    destruct (snd (Saga_Timeout (UnderlyingInstance saga) tx)) as [timeoutErr|] eqn:Hfired;
      cbn [fst snd].
    + assert (issued g (after_call (CallTimeout saga tx) g1) =
                [CallGetSagaByID tx sagaID; CallTimeout saga tx]) as Hissued.
      { apply issued_app. simpl. by rewrite <- app_assoc. }
      rewrite Hissued. split; [reflexivity|]. split; [|done].
      by intros e [= ->].
    + split; [|split; [done|reflexivity]].
      set (after := with_UnderlyingInstance _ saga).
      set (g3 := after_call CallSagaTimeoutCounterInc _).
      destruct (completeOrUpdateSaga_calls tx after g3) as (cs & Hcalls & Hprefix & _).
      erewrite issued_app; last first.
      { rewrite Hcalls. subst g3 g1. simpl. rewrite <- !app_assoc. reflexivity. }
      apply prefix_of_reconcileCalls in Hprefix as [->|[->|[->| ->]]]; reflexivity.
Qed.

(** ** Start messages (C6) *)

(** Defs that the message does not start go through the event fan-out
    one after the other when the message is an event without correlation
    id. *)
Lemma handleDefs_fan_out_app (pre post : list Def) invocation message g :
  (forall d, d ∈ pre -> shouldStartNewSaga d message = false) ->
  (pre <> [] ->
   BusMessage.SagaCorrelationID message = "" /\ BusMessage.Semantics message <> CMD) ->
  handleDefs invocation message (pre ++ post) g =
    match handleDefs invocation message pre g with
    | (Some e, g1) => (Some e, g1)
    | (None, g1) => handleDefs invocation message post g1
    end.
Proof.
  revert g. induction pre as [|d pre IH]; intros g Hpre Hevent; [reflexivity|].
  destruct Hevent as [Hcorr Hevt]; [done|].
  change ((d :: pre) ++ post) with (d :: (pre ++ post)).
  rewrite !handleDefs_fan_out by (try done; apply Hpre; by left). cbn zeta.
  destruct (fst (GetSagasByType _ _ _)) as [instances [e|]]; [reflexivity|].
  destruct (invokeInstances _ _ _ _ _) as [[e|] g2]; [reflexivity|].
  apply IH; [|done]. intros d' Hd'. apply Hpre. by right.
Qed.

(** C6 (amended). When the loop of [SagaHandler] comes to a Def whose
    [startedBy] set contains the name of the message, the call is the
    creation path of that Def, whose result is returned at once,
    whether or not the message carries a correlation id, and no Def
    after it is processed.  The loop comes to the first Def indexed
    under the name in every case, and to a later Def when the message is
    an event without correlation id and the fan-out of every Def before
    it ran without error. *)
Theorem SagaHandler_start_message_creates (pre post : list Def) def invocation message g g1 :
  resolveDefs g message = pre ++ def :: post ->
  shouldStartNewSaga def message = true ->
  (forall d, d ∈ pre -> shouldStartNewSaga d message = false) ->
  (pre <> [] ->
   BusMessage.SagaCorrelationID message = "" /\ BusMessage.Semantics message <> CMD) ->
  handleDefs invocation message pre g = (None, g1) ->
  SagaHandler invocation message g = handleNewSaga def invocation message g1 /\
  SagaHandler invocation message g = handleDefs invocation message [def] g1.
Proof.
  intros Hdefs Hstart Hpre Hevent Hloop. unfold SagaHandler.
  rewrite Hdefs, handleDefs_fan_out_app, Hloop by done.
  by rewrite !handleDefs_start.
Qed.

(** The correlated dispatch of a message that matches no stored
    instance, when the store reports it with a nil instance and a nil
    error: success, the lookup is the only call issued. *)
Lemma SagaHandler_absent_as_nil def rest invocation message g :
  resolveDefs g message = def :: rest ->
  shouldStartNewSaga def message = false ->
  BusMessage.SagaCorrelationID message <> "" ->
  let tx := Invocation.Tx invocation in
  let sagaID := BusMessage.SagaCorrelationID message in
  fst (GetSagaByID (sagaStore g) tx sagaID) = (None, None) ->
  SagaHandler invocation message g =
    (None, after_store_call (CallGetSagaByID tx sagaID)
             (snd (GetSagaByID (sagaStore g) tx sagaID)) g).
Proof.
  intros Hdefs Hstart Hcorr tx sagaID Hfetched. unfold SagaHandler.
  rewrite Hdefs, handleDefs_correlated by done.
  unfold correlatedDispatch. fold tx sagaID. by rewrite Hfetched.
Qed.

(** ** Registration (C7, C8) *)

Lemma registerMessage_keeps (m : Message) g :
  sagaDefs (snd (registerMessage m g)) = sagaDefs g /\
  msgToDefMap (snd (registerMessage m g)) = msgToDefMap g /\
  svcName (snd (registerMessage m g)) = svcName g.
Proof.
  unfold registerMessage. destruct (alreadyRegistred g !! SchemaName m); [done|].
  unfold bus_HandleMessage, bind, record_call. simpl.
  by destruct (HandleMessage (bus g) m).
Qed.

Lemma registerEvent_keeps (exchange topic : string) (m : Message) g :
  sagaDefs (snd (registerEvent exchange topic m g)) = sagaDefs g /\
  msgToDefMap (snd (registerEvent exchange topic m g)) = msgToDefMap g /\
  svcName (snd (registerEvent exchange topic m g)) = svcName g.
Proof.
  unfold registerEvent. destruct (alreadyRegistred g !! SchemaName m); [done|].
  unfold bus_HandleEvent, bind, record_call. simpl.
  by destruct (HandleEvent (bus g) exchange topic m).
Qed.

Lemma getHandledMessages_add (exchange routingKey handler : string) (m : Message) def :
  getHandledMessages (addMsgToHandlerMapping exchange routingKey m handler def) =
    getHandledMessages def ++ [ToLower (SchemaName m)].
Proof. unfold getHandledMessages, addMsgToHandlerMapping. simpl. by rewrite map_app. Qed.

(** What the registrations of a saga leave: a handler table with one
    more line per registration, under the lower-case schema name; the
    Defs of the glue and its index are not touched. *)
Lemma RegisterAllHandlers_table (asks : list HandlerRegistration) def g :
  sagaType (fst (RegisterAllHandlers asks def g)) = sagaType def /\
  getHandledMessages (fst (RegisterAllHandlers asks def g)) =
    getHandledMessages def ++ map (fun ask => ToLower (SchemaName (askedMessage ask))) asks /\
  sagaDefs (snd (RegisterAllHandlers asks def g)) = sagaDefs g /\
  msgToDefMap (snd (RegisterAllHandlers asks def g)) = msgToDefMap g.
Proof.
  revert def g. induction asks as [|ask asks IH]; intros def g.
  - simpl. by rewrite app_nil_r.
  - destruct ask as [m handler|exchange topic m handler]; cbn [RegisterAllHandlers];
      unfold bind.
    + unfold Def_HandleMessage.
      destruct (registerMessage_keeps m g) as (Hdefs & Hmap & _).
      destruct (registerMessage m g) as [e g1]. cbn [fst snd] in *.
      destruct (IH (addMsgToHandlerMapping "" (svcName g) m handler def) g1)
        as (Hty & Hnames & Hdefs1 & Hmap1).
      rewrite Hty, Hnames, Hdefs1, Hmap1, getHandledMessages_add, Hdefs, Hmap.
      by rewrite <- app_assoc.
    + unfold Def_HandleEvent, bind, ret.
      destruct (registerEvent_keeps exchange topic m g) as (Hdefs & Hmap & _).
      destruct (registerEvent exchange topic m g) as [e g1]. cbn [fst snd] in *.
      destruct (IH (addMsgToHandlerMapping exchange topic m handler def) g1)
        as (Hty & Hnames & Hdefs1 & Hmap1).
      rewrite Hty, Hnames, Hdefs1, Hmap1, getHandledMessages_add, Hdefs, Hmap.
      by rewrite <- app_assoc.
Qed.

(** [addMsgNameToDef] stores the Def under the name as it is given. *)
Lemma addMsgNameToDef_eq (msgName : string) def g :
  addMsgNameToDef msgName def g =
    (tt, with_msgToDefMap
           (<[msgName := default [] (msgToDefMap g !! msgName) ++ [def]]> (msgToDefMap g)) g).
Proof.
  unfold addMsgNameToDef, getDefsForMsgName, bind.
  by destruct (msgToDefMap g !! msgName).
Qed.

Lemma addMsgNameToDef_indexes (msgName : string) def g :
  indexed (snd (addMsgNameToDef msgName def g)) msgName def.
Proof.
  rewrite addMsgNameToDef_eq. unfold indexed.
  cbn [snd with_msgToDefMap msgToDefMap]. eexists. rewrite lookup_insert_eq.
  split; [done|]. apply elem_of_app. right. by left.
Qed.

Lemma addMsgNameToDef_keeps (msgName k : string) def (d : Def) g :
  indexed g k d -> indexed (snd (addMsgNameToDef msgName def g)) k d.
Proof.
  intros (defs & Hk & Hd). rewrite addMsgNameToDef_eq. unfold indexed.
  cbn [snd with_msgToDefMap msgToDefMap].
  destruct (decide (msgName = k)) as [->|Hne].
  - eexists. rewrite lookup_insert_eq. split; [done|].
    rewrite Hk. cbn [default]. apply elem_of_app. by left.
  - exists defs. by rewrite lookup_insert_ne.
Qed.

Lemma addMsgNamesToDef_keeps (msgNames : list string) (k : string) def (d : Def) g :
  indexed g k d -> indexed (snd (addMsgNamesToDef msgNames def g)) k d.
Proof.
  revert g. induction msgNames as [|n msgNames IH]; intros g Hk; [done|].
  cbn [addMsgNamesToDef]. unfold bind.
  pose proof (addMsgNameToDef_keeps n k def d g Hk) as Hstep.
  destruct (addMsgNameToDef n def g) as [[] g1]. by apply IH.
Qed.

Lemma addMsgNamesToDef_indexes (msgNames : list string) (k : string) def g :
  k ∈ msgNames -> indexed (snd (addMsgNamesToDef msgNames def g)) k def.
Proof.
  revert g. induction msgNames as [|n msgNames IH]; intros g Hk.
  - by apply elem_of_nil in Hk.
  - cbn [addMsgNamesToDef]. unfold bind.
    pose proof (addMsgNameToDef_indexes n def g) as Hstep.
    destruct (addMsgNameToDef n def g) as [[] g1]. cbn [snd] in Hstep.
    apply elem_of_cons in Hk as [->|Hk]; [by apply addMsgNamesToDef_keeps|by apply IH].
Qed.

Lemma addMsgNamesToDef_sagaDefs (msgNames : list string) def g :
  sagaDefs (snd (addMsgNamesToDef msgNames def g)) = sagaDefs g.
Proof.
  revert g. induction msgNames as [|n msgNames IH]; intros g; [done|].
  cbn [addMsgNamesToDef]. unfold bind. rewrite addMsgNameToDef_eq. by rewrite IH.
Qed.

Lemma isSagaAlreadyRegistered_in_true (defs : list Def) (ty : SagaType) :
  isSagaAlreadyRegistered_in defs ty = true <->
  exists def, def ∈ defs /\ sagaType def = ty.
Proof.
  induction defs as [|d defs IH]; simpl.
  - split; [done|]. intros (def & Hin & _). by apply elem_of_nil in Hin.
  - destruct (String.eqb (sagaType d) ty) eqn:Heq.
    + apply String.eqb_eq in Heq. split; [|done]. intros _. exists d. split; [by left|done].
    + apply String.eqb_neq in Heq. rewrite IH. split.
      * intros (def & Hin & Hty). exists def. split; [by right|done].
      * intros (def & Hin & Hty). apply elem_of_cons in Hin as [->|Hin]; [done|].
        by exists def.
Qed.

(** The registration of a saga whose type is not registered yet. *)
Lemma RegisterSaga_fresh (saga : Saga) (conf : list (Saga -> Saga)) g :
  isSagaAlreadyRegistered_in (sagaDefs g) (TypeOf saga) = false ->
  RegisterSaga saga conf g =
    let g1 := with_sagaStore (RegisterSagaType (sagaStore g) saga)
                (after_call (CallRegisterSagaType saga) g) in
    let r := RegisterAllHandlers (Saga_RegisterAllHandlers saga)
               (mkDef (TypeOf saga) conf (fqnsFromMessages (Saga_StartedBy saga)) []) g1 in
    let g2 := with_sagaDefs (sagaDefs (snd r) ++ [fst r]) (snd r) in
    (None, snd (addMsgNamesToDef (getHandledMessages (fst r)) (fst r) g2)).
Proof.
  intros Hfresh. unfold RegisterSaga, bind, isSagaAlreadyRegistered. rewrite Hfresh.
  unfold sagaStore_RegisterSagaType, bind, record_call. cbn zeta.
  destruct (RegisterAllHandlers _ _ _) as [def g2]. cbn [fst snd].
  by destruct (addMsgNamesToDef _ _ _) as [[] g3].
Qed.

(** C7. Def resolution does not depend on letter case: after
    [RegisterSaga] has registered a saga, for every message the saga
    registered a handler for, a [SagaHandler] call for a message whose
    name equals the schema name of that message up to letter case
    iterates over the Def built for the saga.  The handler table holds
    the schema name in lower case, [addMsgNameToDef] indexes the Def
    under that key, and [SagaHandler] lowers the incoming name before
    the lookup. *)
Theorem RegisterSaga_resolves_any_letter_case (saga : Saga) (conf : list (Saga -> Saga))
    g g1 (ask : HandlerRegistration) message :
  RegisterSaga saga conf g = (None, g1) ->
  ask ∈ Saga_RegisterAllHandlers saga ->
  ToLower (BusMessage.PayloadFQN message) = ToLower (SchemaName (askedMessage ask)) ->
  exists def,
    sagaDefs g1 = sagaDefs g ++ [def] /\
    sagaType def = TypeOf saga /\
    ToLower (SchemaName (askedMessage ask)) ∈ getHandledMessages def /\
    def ∈ resolveDefs g1 message.
Proof.
  intros Hreg Hask Hname.
  destruct (isSagaAlreadyRegistered_in (sagaDefs g) (TypeOf saga)) eqn:Hfresh.
  { unfold RegisterSaga, bind, isSagaAlreadyRegistered in Hreg.
    rewrite Hfresh in Hreg. discriminate. }
  rewrite RegisterSaga_fresh in Hreg by done. cbn zeta in Hreg.
  set (g0 := with_sagaStore _ _) in Hreg.
  destruct (RegisterAllHandlers_table (Saga_RegisterAllHandlers saga)
              (mkDef (TypeOf saga) conf (fqnsFromMessages (Saga_StartedBy saga)) []) g0)
    as (Hty & Hnames & Hdefs & _).
  destruct (RegisterAllHandlers _ _ g0) as [def g2]. cbn [fst snd] in *.
  injection Hreg as <-. exists def.
  assert (ToLower (SchemaName (askedMessage ask)) ∈ getHandledMessages def) as Hin.
  { rewrite Hnames. apply elem_of_app. right.
    apply (list_elem_of_fmap_2 (fun ask => ToLower (SchemaName (askedMessage ask)))).
    done. }
  split; [by rewrite addMsgNamesToDef_sagaDefs; simpl; rewrite Hdefs|].
  split; [done|]. split; [done|].
  unfold resolveDefs. rewrite Hname.
  destruct (addMsgNamesToDef_indexes (getHandledMessages def)
              (ToLower (SchemaName (askedMessage ask))) def
              (with_sagaDefs (sagaDefs g2 ++ [def]) g2) Hin) as (defs & -> & Hdef).
  done.
Qed.

(** C8. [RegisterSaga] for a saga whose type is already registered
    returns an error that names the type and leaves the glue as it was:
    the store is not asked to prepare storage, no Def is appended, no
    message name is indexed, nothing is subscribed on the bus.  A
    registration that succeeded leaves the type registered, so that a
    second one is rejected. *)
Theorem RegisterSaga_rejects_registered_type (saga : Saga) (conf : list (Saga -> Saga)) g :
  ((exists def, def ∈ sagaDefs g /\ sagaType def = TypeOf saga) ->
     RegisterSaga saga conf g =
       (Some (errorString ("saga of type " +:+ TypeOf saga +:+ " already registered")), g)) /\
  (forall g1, RegisterSaga saga conf g = (None, g1) ->
     (exists def, def ∈ sagaDefs g1 /\ sagaType def = TypeOf saga) /\
     forall (saga' : Saga) (conf' : list (Saga -> Saga)),
       TypeOf saga' = TypeOf saga ->
       RegisterSaga saga' conf' g1 =
         (Some (errorString ("saga of type " +:+ TypeOf saga +:+ " already registered")), g1)).
Proof.
  assert (forall (s : Saga) (cf : list (Saga -> Saga)) g0,
            (exists def, def ∈ sagaDefs g0 /\ sagaType def = TypeOf s) ->
            RegisterSaga s cf g0 =
              (Some (errorString ("saga of type " +:+ TypeOf s +:+ " already registered")), g0))
    as Hreject.
  { intros s cf g0 Hreg. apply isSagaAlreadyRegistered_in_true in Hreg.
    unfold RegisterSaga, bind, isSagaAlreadyRegistered. by rewrite Hreg. }
  split; [apply Hreject|].
  intros g1 Hreg.
  assert (exists def, def ∈ sagaDefs g1 /\ sagaType def = TypeOf saga) as Hnow.
  { destruct (isSagaAlreadyRegistered_in (sagaDefs g) (TypeOf saga)) eqn:Hfresh.
    { unfold RegisterSaga, bind, isSagaAlreadyRegistered in Hreg.
      rewrite Hfresh in Hreg. discriminate. }
    rewrite RegisterSaga_fresh in Hreg by done. cbn zeta in Hreg.
    set (g0 := with_sagaStore _ _) in Hreg.
    destruct (RegisterAllHandlers_table (Saga_RegisterAllHandlers saga)
                (mkDef (TypeOf saga) conf (fqnsFromMessages (Saga_StartedBy saga)) []) g0)
      as (Hty & _ & _ & _).
    destruct (RegisterAllHandlers _ _ g0) as [def g2]. cbn [fst snd] in *.
    injection Hreg as <-. exists def. split; [|done].
    rewrite addMsgNamesToDef_sagaDefs. simpl. apply elem_of_app. right. by left. }
  split; [done|]. intros saga' conf' Hty. rewrite <- Hty. apply Hreject. by rewrite Hty.
Qed.

End GlueProperties.

(** * The properties on the concrete installation *)

Import OrderExample.

Lemma completeOrUpdateSaga_deletes_or_updates_witness :
  isComplete (storedPaid "a") = true /\
  issued (registered false)
    (snd (completeOrUpdateSaga 7 (storedPaid "a") (registered false))) =
    [CallDeleteSaga 7 (storedPaid "a"); CallClearTimeout 7 "a"] /\
  isComplete (stored "a" false) = false /\
  issued (registered false)
    (snd (completeOrUpdateSaga 7 (stored "a" false) (registered false))) =
    [CallUpdateSaga 7 (stored "a" false)].
Proof.
  split; [reflexivity|]. split.
  - apply (completeOrUpdateSaga_deletes_or_updates 7 (storedPaid "a") (registered false));
      reflexivity.
  - split; [reflexivity|].
    apply (completeOrUpdateSaga_deletes_or_updates 7 (stored "a" false) (registered false)).
    reflexivity.
Defined.

(** C1, at an input on which the code does not do what the claim says.
    The store reports a lookup by an id that no row has with the
    sentinel [ErrInstanceNotFound].  The message carries a correlation
    id, does not start the Def indexed under its name and matches no
    stored instance; [SagaHandler] returns the sentinel instead of
    success. *)
Lemma SagaHandler_unknown_correlation_returns_sentinel :
  resolveDefs (registered true) orderPaidUnknown = [orderDef] /\
  shouldStartNewSaga orderDef orderPaidUnknown = false /\
  BusMessage.SagaCorrelationID orderPaidUnknown <> "" /\
  rows (sagaStore (registered true)) = [] /\
  fst (GetSagaByID (sagaStore (registered true)) 7 "unknown")
    = (None, Some ErrInstanceNotFound) /\
  fst (SagaHandler invocation orderPaidUnknown (registered true))
    = Some ErrInstanceNotFound.
Proof. repeat split; try (vm_compute; reflexivity). discriminate. Qed.

(** The same message on a store that reports the absence with a nil
    instance and a nil error: success, and the lookup is the only call
    issued. *)
Lemma SagaHandler_unknown_correlation_nil_instance :
  fst (GetSagaByID (sagaStore (registered false)) 7 "unknown") = (None, None) /\
  fst (SagaHandler invocation orderPaidUnknown (registered false)) = None /\
  issued (registered false)
    (snd (SagaHandler invocation orderPaidUnknown (registered false)))
    = [CallGetSagaByID 7 "unknown"].
Proof. repeat split; vm_compute; reflexivity. Qed.

Lemma SagaHandler_propagates_not_found_sentinel_witness :
  resolveDefs (registered true) orderPaidUnknown = [orderDef] /\
  fst (SagaHandler invocation orderPaidUnknown (registered true))
    = Some ErrInstanceNotFound /\
  fst (TimeoutSaga 7 "unknown" (registered true)) = Returned None.
Proof.
  assert (resolveDefs (registered true) orderPaidUnknown = [orderDef]) as Hdefs
    by (vm_compute; reflexivity).
  split; [exact Hdefs|].
  pose proof (SagaHandler_propagates_not_found_sentinel orderDef [] invocation
                orderPaidUnknown (registered true) Hdefs eq_refl) as Hthm.
  destruct Hthm as (_ & _ & Hsentinel); [discriminate|].
  apply (Hsentinel None). vm_compute. reflexivity.
Defined.

Lemma SagaHandler_only_fan_out_continues_witness :
  resolveDefs (registeredBoth false) orderPaidUnknown = [orderDef; invoiceDef] /\
  SagaHandler invocation orderPaidUnknown (registeredBoth false) =
    handleDefs invocation orderPaidUnknown [orderDef] (registeredBoth false) /\
  resolveDefs (registeredBoth false) orderPaid = [orderDef; invoiceDef] /\
  SagaHandler invocation orderPaid (registeredBoth false) =
    handleDefs invocation orderPaid [invoiceDef]
      (snd (handleDefs invocation orderPaid [orderDef] (registeredBoth false))).
Proof.
  assert (resolveDefs (registeredBoth false) orderPaidUnknown = [orderDef; invoiceDef])
    as Hdefs by (vm_compute; reflexivity).
  assert (resolveDefs (registeredBoth false) orderPaid = [orderDef; invoiceDef])
    as Hdefs' by (vm_compute; reflexivity).
  split; [exact Hdefs|]. split.
  - pose proof (SagaHandler_only_fan_out_continues orderDef [invoiceDef] invocation
                  orderPaidUnknown (registeredBoth false) Hdefs eq_refl) as [Hcorr _].
    destruct Hcorr as [Hsame _]; [discriminate|]. exact Hsame.
  - split; [exact Hdefs'|].
    pose proof (SagaHandler_only_fan_out_continues orderDef [invoiceDef] invocation
                  orderPaid (registeredBoth false) Hdefs' eq_refl) as (_ & _ & Hfan & _).
    apply Hfan; [reflexivity|discriminate|]. vm_compute. reflexivity.
Defined.

(** C2 as stated fails where the first of two stored instances has a
    failing handler: the invocation of instance 1 of 2 fails and
    [SagaHandler] returns its error, yet instance 1 is among the
    instances invoked, so that not all of the instances 1..2 are left
    uninvoked; the instances from 2 on are. *)
Lemma fan_out_invokes_the_failing_instance :
  let instances := [stored "a" true; stored "b" false] in
  let g' := snd (SagaHandler invocation orderShipped firstBroken) in
  resolveDefs firstBroken orderShipped = [orderDef] /\
  shouldStartNewSaga orderDef orderShipped = false /\
  BusMessage.SagaCorrelationID orderShipped = "" /\
  BusMessage.Semantics orderShipped <> CMD /\
  fst (GetSagasByType (sagaStore firstBroken) 7 "*OrderSaga") = (instances, None) /\
  snd (invokeResult "orders" (configureSaga orderDef (stored "a" true))
         invocation orderShipped) = Some (errorString "handler failed") /\
  fst (SagaHandler invocation orderShipped firstBroken)
    = Some (errorString "handler failed") /\
  invokedInstances (issued firstBroken g') = [stored "a" true] /\
  ~ untouchedFrom 0 instances (issued firstBroken g') /\
  untouchedFrom 1 instances (issued firstBroken g').
Proof.
  intros instances g'.
  repeat (split; [first [discriminate | vm_compute; reflexivity]|]).
  split.
  - intros Huntouched.
    destruct (Huntouched 0 (stored "a" true)) as [Hinvoked _]; [lia|reflexivity|].
    apply Hinvoked. vm_compute. left.
  - intros k instance Hk Hlookup.
    destruct k as [|[|k]]; [lia| |discriminate].
    injection Hlookup as <-. split; vm_compute.
    + intros Hin. apply list_elem_of_singleton in Hin. discriminate.
    + apply not_elem_of_nil.
Qed.

Lemma SagaHandler_event_fan_out_witness :
  let instances := [stored "a" false; stored "b" true] in
  let g := secondBroken in
  (exists g1,
     SagaHandler invocation orderShipped g = handleDefs invocation orderShipped [] g1 /\
     invokedInstances (issued g g1) = map (configureSaga orderDef) instances)
  \/
  (exists pre failing post e g2,
     instances = pre ++ failing :: post /\
     SagaHandler invocation orderShipped g = (Some e, g2) /\
     invokedInstances (issued g g2) = map (configureSaga orderDef) (pre ++ [failing])).
Proof.
  intros instances g.
  assert (resolveDefs g orderShipped = [orderDef]) as Hdefs by (vm_compute; reflexivity).
  assert (BusMessage.Semantics orderShipped <> CMD) as Hevt by discriminate.
  assert (fst (GetSagasByType (sagaStore g) (Invocation.Tx invocation) (sagaType orderDef))
            = (instances, None)) as Hfetched by (vm_compute; reflexivity).
  destruct (SagaHandler_event_fan_out orderDef [] invocation orderShipped g instances
              Hdefs eq_refl eq_refl Hevt Hfetched)
    as [(g1 & Hrun & _ & Hinvoked & _)
       |(pre & failing & post & e & g2 & tail & Hsplit & Hrun & _ & _ & Hinvoked & _)].
  - left. exists g1. split; [exact Hrun|exact Hinvoked].
  - right. exists pre, failing, post, e, g2.
    split; [exact Hsplit|]. split; [exact Hrun|exact Hinvoked].
Defined.

Lemma handleNewSaga_saves_unless_complete_witness :
  let g := registered false in
  let after :=
    fst (invokeResult "orders" (stampedInstance orderDef invocation orderCreated g)
           invocation orderCreated) in
  StartedBy after = "billing" /\
  isComplete after = false /\
  CallSaveNewSaga 7 "*OrderSaga" after
    ∈ issued g (snd (handleNewSaga orderDef invocation orderCreated g)).
Proof.
  intros g after.
  pose proof (handleNewSaga_saves_unless_complete orderDef invocation orderCreated g)
    as (_ & (Hby & _) & _ & _ & Hsaved & _).
  split; [exact Hby|]. split; [reflexivity|].
  destruct (Hsaved eq_refl) as [Hiff _]. apply Hiff. reflexivity.
Defined.

Lemma TimeoutSaga_not_found_is_success_witness :
  fst (GetSagaByID (sagaStore (registered true)) 3 "gone")
    = (None, Some ErrInstanceNotFound) /\
  TimeoutSaga 3 "gone" (registered true) =
    (Returned None,
     after_store_call (CallGetSagaByID 3 "gone") (sagaStore (registered true))
       (registered true)) /\
  fst (GetSagaByID (sagaStore firstBroken) 3 "b") = (Some (stored "b" false), None) /\
  List.filter isBusinessCall
    (issued firstBroken (snd (TimeoutSaga 3 "b" firstBroken)))
    = [CallTimeout (stored "b" false) 3].
Proof.
  split; [vm_compute; reflexivity|]. split.
  - pose proof (TimeoutSaga_not_found_is_success 3 "gone" (registered true))
      as (Hgone & _ & _).
    apply (Hgone None). vm_compute. reflexivity.
  - split; [vm_compute; reflexivity|].
    pose proof (TimeoutSaga_not_found_is_success 3 "b" firstBroken) as (_ & _ & Hfound).
    apply (Hfound (stored "b" false)). vm_compute. reflexivity.
Defined.

(** C6 as stated fails where the Def that the message starts comes
    after a Def that it does not start: a message with a correlation id
    ends in the correlated dispatch of the first Def, and the creation
    path of the second is never taken. *)
Lemma start_message_after_correlated_def_creates_nothing :
  let g := registeredBoth false in
  let g' := snd (SagaHandler invocation orderPaidUnknown g) in
  resolveDefs g orderPaidUnknown = [orderDef; invoiceDef] /\
  shouldStartNewSaga invoiceDef orderPaidUnknown = true /\
  fst (SagaHandler invocation orderPaidUnknown g) = None /\
  issued g g' = [CallGetSagaByID 7 "unknown"] /\
  invokedInstances (issued g g') = [] /\
  SagaHandler invocation orderPaidUnknown g
    <> handleNewSaga invoiceDef invocation orderPaidUnknown g.
Proof.
  repeat split; try (vm_compute; reflexivity).
  intros Heq.
  apply (f_equal (fun r => created (snd r))) in Heq.
  vm_compute in Heq. discriminate.
Qed.

Lemma SagaHandler_start_message_creates_witness :
  let g := registeredBoth false in
  let g1 := snd (handleDefs invocation orderPaid [orderDef] g) in
  let early := envelope "OrderCreated" "some-id" EVT in
  resolveDefs g orderPaid = [orderDef] ++ invoiceDef :: [] /\
  SagaHandler invocation orderPaid g = handleNewSaga invoiceDef invocation orderPaid g1 /\
  resolveDefs (registered false) early = [] ++ orderDef :: [] /\
  SagaHandler invocation early (registered false) =
    handleNewSaga orderDef invocation early (registered false).
Proof.
  intros g g1 early.
  assert (resolveDefs g orderPaid = [orderDef] ++ invoiceDef :: []) as Hdefs
    by (vm_compute; reflexivity).
  assert (resolveDefs (registered false) early = [] ++ orderDef :: []) as Hdefs'
    by (vm_compute; reflexivity).
  split; [exact Hdefs|]. split; [|split; [exact Hdefs'|]].
  - destruct (SagaHandler_start_message_creates [orderDef] [] invoiceDef invocation
                orderPaid g g1 Hdefs eq_refl) as [Hcreates _].
    + intros d Hd. apply list_elem_of_singleton in Hd. rewrite Hd. reflexivity.
    + intros _. split; [reflexivity|discriminate].
    + vm_compute. reflexivity.
    + exact Hcreates.
  - destruct (SagaHandler_start_message_creates [] [] orderDef invocation
                early (registered false) (registered false) Hdefs' eq_refl)
      as [Hcreates _].
    + intros d Hd. apply elem_of_nil in Hd. destruct Hd.
    + intros Hne. destruct Hne. reflexivity.
    + reflexivity.
    + exact Hcreates.
Defined.

Lemma RegisterSaga_resolves_any_letter_case_witness :
  exists def,
    sagaDefs (registered false) = [def] /\
    sagaType def = "*OrderSaga" /\
    def ∈ resolveDefs (registered false) (envelope "ORDERpaid" "x" EVT).
Proof.
  destruct (RegisterSaga_resolves_any_letter_case orderSaga [] (emptyGlue false)
              (registered false) (AskHandleMessage (mkMessage "OrderPaid") "Handle")
              (envelope "ORDERpaid" "x" EVT))
    as (def & Hdefs & Hty & _ & Hin).
  - vm_compute. reflexivity.
  - right. left.
  - reflexivity.
  - exists def. split; [exact Hdefs|]. split; [exact Hty|exact Hin].
Defined.

Lemma RegisterSaga_rejects_registered_type_witness :
  RegisterSaga orderSaga [] (emptyGlue false) = (None, registered false) /\
  RegisterSaga orderSaga [] (registered false) =
    (Some (errorString "saga of type *OrderSaga already registered"), registered false).
Proof.
  assert (RegisterSaga orderSaga [] (emptyGlue false) = (None, registered false)) as Hfirst
    by (vm_compute; reflexivity).
  split; [exact Hfirst|].
  pose proof (RegisterSaga_rejects_registered_type orderSaga [] (emptyGlue false))
    as [_ Hsecond].
  destruct (Hsecond (registered false) Hfirst) as [_ Hreject].
  apply (Hreject orderSaga []). reflexivity.
Defined.

(** * Further properties of [glue.go] *)

Section GlueCoverage.

Context {Saga : Type} `{!SagaLogic (Saga := Saga)}.
Context {StoreS : Type} `{!Store (Saga := Saga) StoreS}.
Context {TimerS : Type} `{!TimeoutManager TimerS}.
Context {BusS : Type} `{!Bus BusS}.

Implicit Types (g : Glue (Saga := Saga) (StoreS := StoreS) (TimerS := TimerS) (BusS := BusS)).
Implicit Types (def d : Def (Saga := Saga)) (instance : Instance (Saga := Saga)).
Implicit Types (invocation : Invocation.t) (message : BusMessage.t).
Implicit Types (tx : TxHandle) (sagaID msgName k : string).
Implicit Types (c : Call (Saga := Saga)) (cs : list (Call (Saga := Saga))).
Implicit Types (instances : list (Instance (Saga := Saga))).
Implicit Types (saga : Saga) (conf : list (Saga -> Saga)).
Implicit Types (m : Message) (msgNames : list string).

(** ** Names and the index *)

Lemma fold_fqns (objs : list Message) (acc : list string) :
  fold_left (fun fqns obj => fqns ++ [SchemaName obj]) objs acc =
    acc ++ map SchemaName objs.
Proof.
  revert acc. induction objs as [|obj objs IH]; intros acc; simpl.
  - by rewrite app_nil_r.
  - by rewrite IH, <- app_assoc.
Qed.

(** X1. [fqnsFromMessages] returns the schema name of every message,
    one per message and in the order of the messages. *)
Theorem fqnsFromMessages_in_order (objs : list Message) :
  fqnsFromMessages objs = map SchemaName objs /\
  length (fqnsFromMessages objs) = length objs.
Proof.
  unfold fqnsFromMessages. rewrite fold_fqns. simpl.
  split; [done|]. apply length_map.
Qed.

(** X2. [isSagaAlreadyRegistered] answers true exactly when one of the
    registered Defs has the given saga type, and changes nothing. *)
Theorem isSagaAlreadyRegistered_iff_type_registered (ty : SagaType) g :
  snd (isSagaAlreadyRegistered ty g) = g /\
  (fst (isSagaAlreadyRegistered ty g) = true <->
   exists def, def ∈ sagaDefs g /\ sagaType def = ty).
Proof. split; [done|]. apply isSagaAlreadyRegistered_in_true. Qed.

Lemma getDefs_after_add msgName k def g :
  fst (getDefsForMsgName k (snd (addMsgNameToDef msgName def g))) =
    if decide (k = msgName)
    then fst (getDefsForMsgName k g) ++ [def]
    else fst (getDefsForMsgName k g).
Proof.
  rewrite addMsgNameToDef_eq. unfold getDefsForMsgName.
  cbn [fst snd with_msgToDefMap msgToDefMap].
  destruct (decide (k = msgName)) as [->|Hne].
  - rewrite lookup_insert_eq. by destruct (msgToDefMap g !! msgName).
  - by rewrite lookup_insert_ne.
Qed.

(** X3. After [addMsgNameToDef] the list read by [getDefsForMsgName]
    under the name is the former list with the Def appended (the Def
    alone when the name was not a key); the list under every other name,
    the registered Defs, the registered set and the record of calls are
    as before. *)
Theorem addMsgNameToDef_appends_under_name msgName def g :
  let g' := snd (addMsgNameToDef msgName def g) in
  fst (getDefsForMsgName msgName g') = fst (getDefsForMsgName msgName g) ++ [def] /\
  (msgToDefMap g !! msgName = None -> fst (getDefsForMsgName msgName g') = [def]) /\
  (forall other, other <> msgName ->
     fst (getDefsForMsgName other g') = fst (getDefsForMsgName other g)) /\
  sagaDefs g' = sagaDefs g /\ alreadyRegistred g' = alreadyRegistred g /\
  calls g' = calls g.
Proof.
  intros g'. subst g'. split; [|split; [|split]].
  - rewrite getDefs_after_add. by rewrite decide_True.
  - intros Hnone. rewrite getDefs_after_add, decide_True by done.
    unfold getDefsForMsgName. cbn [fst]. by rewrite Hnone.
  - intros other Hne. rewrite getDefs_after_add. by rewrite decide_False.
  - by rewrite addMsgNameToDef_eq.
Qed.

Lemma getDefs_after_addMsgNames msgNames def g k :
  fst (getDefsForMsgName k (snd (addMsgNamesToDef msgNames def g))) =
    fst (getDefsForMsgName k g) ++
    replicate (length (List.filter (String.eqb k) msgNames)) def.
Proof.
  revert g. induction msgNames as [|n msgNames IH]; intros g.
  - simpl. by rewrite app_nil_r.
  - cbn [addMsgNamesToDef]. unfold bind.
    pose proof (getDefs_after_add n k def g) as Hstep.
    destruct (addMsgNameToDef n def g) as [[] g1]. cbn [snd] in Hstep.
    rewrite IH, Hstep. cbn [List.filter].
    destruct (decide (k = n)) as [->|Hne].
    + rewrite String.eqb_refl. cbn [length replicate]. by rewrite <- app_assoc.
    + apply String.eqb_neq in Hne. by rewrite Hne.
Qed.

Lemma addMsgNamesToDef_only_index msgNames def g :
  exists index, snd (addMsgNamesToDef msgNames def g) = with_msgToDefMap index g.
Proof.
  revert g. induction msgNames as [|n msgNames IH]; intros g.
  - exists (msgToDefMap g). by destruct g.
  - cbn [addMsgNamesToDef]. unfold bind. rewrite addMsgNameToDef_eq.
    destruct (IH (with_msgToDefMap
                    (<[n := default [] (msgToDefMap g !! n) ++ [def]]> (msgToDefMap g)) g))
      as [index ->].
    by exists index.
Qed.

Lemma filter_eqb_empty (k : string) msgNames :
  List.filter (String.eqb k) msgNames = [] <-> k ∉ msgNames.
Proof.
  induction msgNames as [|n msgNames IH]; simpl.
  - split; [intros _; apply not_elem_of_nil|done].
  - rewrite not_elem_of_cons. destruct (String.eqb k n) eqn:Heq.
    + apply String.eqb_eq in Heq. split; [done|]. by intros [Hne _].
    + apply String.eqb_neq in Heq. rewrite IH. split; [done|]. by intros [_ Hnot].
Qed.

(** X4. The loop of [RegisterSaga] over the handled names lists the
    Def under a name once for every occurrence of the name among the
    handled names, after the Defs already listed there: a name handled
    twice lists the Def twice, a name that is not handled keeps its
    list.  The loop changes nothing but the index. *)
Theorem addMsgNamesToDef_lists_once_per_occurrence msgNames def g k :
  let g' := snd (addMsgNamesToDef msgNames def g) in
  fst (getDefsForMsgName k g') =
    fst (getDefsForMsgName k g) ++
    replicate (length (List.filter (String.eqb k) msgNames)) def /\
  (k ∉ msgNames -> fst (getDefsForMsgName k g') = fst (getDefsForMsgName k g)) /\
  (k ∈ msgNames -> def ∈ fst (getDefsForMsgName k g')) /\
  sagaDefs g' = sagaDefs g /\ alreadyRegistred g' = alreadyRegistred g /\
  bus g' = bus g /\ calls g' = calls g.
Proof.
  intros g'. subst g'. rewrite getDefs_after_addMsgNames.
  split; [done|]. split; [|split].
  - intros Hnot. apply filter_eqb_empty in Hnot. rewrite Hnot. simpl.
    by rewrite app_nil_r.
  - intros Hin. apply elem_of_app. right.
    destruct (List.filter (String.eqb k) msgNames) as [|n l] eqn:Hfilter.
    + apply filter_eqb_empty in Hfilter. done.
    + simpl. by left.
  - by destruct (addMsgNamesToDef_only_index msgNames def g) as [index ->].
Qed.

(** ** Subscriptions on the bus *)

Lemma registerMessage_eq m g :
  registerMessage m g =
    match alreadyRegistred g !! SchemaName m with
    | Some _ => (None, g)
    | None =>
        (fst (HandleMessage (bus g) m),
         with_bus (snd (HandleMessage (bus g) m))
           (after_call (CallBusHandleMessage m)
              (with_alreadyRegistred (<[SchemaName m := true]> (alreadyRegistred g)) g)))
    end.
Proof.
  unfold registerMessage. destruct (alreadyRegistred g !! SchemaName m); [done|].
  unfold bus_HandleMessage, bind, record_call. simpl.
  by destruct (HandleMessage (bus g) m).
Qed.

Lemma registerEvent_eq (exchange topic : string) m g :
  registerEvent exchange topic m g =
    match alreadyRegistred g !! SchemaName m with
    | Some _ => (None, g)
    | None =>
        (fst (HandleEvent (bus g) exchange topic m),
         with_bus (snd (HandleEvent (bus g) exchange topic m))
           (after_call (CallBusHandleEvent exchange topic m)
              (with_alreadyRegistred (<[SchemaName m := true]> (alreadyRegistred g)) g)))
    end.
Proof.
  unfold registerEvent. destruct (alreadyRegistred g !! SchemaName m); [done|].
  unfold bus_HandleEvent, bind, record_call. simpl.
  by destruct (HandleEvent (bus g) exchange topic m).
Qed.

Lemma registerMessage_marks m g :
  is_Some (alreadyRegistred (snd (registerMessage m g)) !! SchemaName m).
Proof.
  rewrite registerMessage_eq.
  destruct (alreadyRegistred g !! SchemaName m) eqn:Hreg; cbn [snd].
  - by rewrite Hreg.
  - cbn [with_bus after_call with_calls with_alreadyRegistred alreadyRegistred].
    by rewrite lookup_insert_eq.
Qed.

Lemma registerEvent_marks (exchange topic : string) m g :
  is_Some (alreadyRegistred (snd (registerEvent exchange topic m g)) !! SchemaName m).
Proof.
  rewrite registerEvent_eq.
  destruct (alreadyRegistred g !! SchemaName m) eqn:Hreg; cbn [snd].
  - by rewrite Hreg.
  - cbn [with_bus after_call with_calls with_alreadyRegistred alreadyRegistred].
    by rewrite lookup_insert_eq.
Qed.

Lemma registered_is_noop (exchange topic : string) m g :
  is_Some (alreadyRegistred g !! SchemaName m) ->
  registerMessage m g = (None, g) /\ registerEvent exchange topic m g = (None, g).
Proof.
  intros [b Hb]. rewrite registerMessage_eq, registerEvent_eq. by rewrite Hb.
Qed.

(** X5. [registerMessage] on a schema name that is not registered yet
    marks the name, asks the bus once to handle the message and returns
    what the bus returned; on a registered name it returns nil and does
    nothing.  The name is marked whatever the bus answered: after a
    subscription that failed, a second [registerMessage] or a
    [registerEvent] for a message of the same schema name returns nil
    without calling the bus. *)
Theorem registerMessage_subscribes_once m g :
  let g1 := snd (registerMessage m g) in
  (alreadyRegistred g !! SchemaName m = None ->
     fst (registerMessage m g) = fst (HandleMessage (bus g) m) /\
     issued g g1 = [CallBusHandleMessage m] /\
     bus g1 = snd (HandleMessage (bus g) m)) /\
  (is_Some (alreadyRegistred g !! SchemaName m) -> registerMessage m g = (None, g)) /\
  (forall m' exchange topic, SchemaName m' = SchemaName m ->
     registerMessage m' g1 = (None, g1) /\
     registerEvent exchange topic m' g1 = (None, g1)).
Proof.
  intros g1. split; [|split].
  - intros Hnew. subst g1. rewrite registerMessage_eq, Hnew. cbn [fst snd].
    split; [done|]. split; [|done]. by apply issued_app.
  - intros Hold. by apply (registered_is_noop "" "").
  - intros m' exchange topic Hname. apply registered_is_noop. rewrite Hname.
    apply registerMessage_marks.
Qed.

(** X6. [registerEvent] does the same for an event on a topic of an
    exchange, over the same registered set: a schema name subscribed as
    an event is never subscribed again, neither as an event on another
    topic nor as a message. *)
Theorem registerEvent_subscribes_once (exchange topic : string) m g :
  let g1 := snd (registerEvent exchange topic m g) in
  (alreadyRegistred g !! SchemaName m = None ->
     fst (registerEvent exchange topic m g) = fst (HandleEvent (bus g) exchange topic m) /\
     issued g g1 = [CallBusHandleEvent exchange topic m] /\
     bus g1 = snd (HandleEvent (bus g) exchange topic m)) /\
  (is_Some (alreadyRegistred g !! SchemaName m) ->
     registerEvent exchange topic m g = (None, g)) /\
  (forall m' exchange' topic', SchemaName m' = SchemaName m ->
     registerMessage m' g1 = (None, g1) /\
     registerEvent exchange' topic' m' g1 = (None, g1)).
Proof.
  intros g1. split; [|split].
  - intros Hnew. subst g1. rewrite registerEvent_eq, Hnew. cbn [fst snd].
    split; [done|]. split; [|done]. by apply issued_app.
  - intros Hold. by apply registered_is_noop.
  - intros m' exchange' topic' Hname. apply registered_is_noop. rewrite Hname.
    apply registerEvent_marks.
Qed.

Lemma subscribedNames_app cs1 cs2 :
  subscribedNames (cs1 ++ cs2) = subscribedNames cs1 ++ subscribedNames cs2.
Proof. unfold subscribedNames. by rewrite flat_map_app. Qed.

Lemma forallb_isBusCall_app cs1 cs2 :
  forallb isBusCall cs1 = true -> forallb isBusCall cs2 = true ->
  forallb isBusCall (cs1 ++ cs2) = true.
Proof. intros H1 H2. by rewrite forallb_app, H1, H2. Qed.

Lemma subscribedOnce_ext g g' :
  subscribedNames (calls g') = subscribedNames (calls g) ->
  alreadyRegistred g' = alreadyRegistred g ->
  subscribedOnce g -> subscribedOnce g'.
Proof. unfold subscribedOnce. by intros -> ->. Qed.

(** One new subscription keeps [subscribedOnce]. *)
Lemma subscribedOnce_step (name : string) c g g' :
  alreadyRegistred g !! name = None ->
  calls g' = calls g ++ [c] ->
  subscribedNames [c] = [name] ->
  alreadyRegistred g' = <[name := true]> (alreadyRegistred g) ->
  subscribedOnce g -> subscribedOnce g'.
Proof.
  intros Hnew Hcalls Hname Hreg [Hnodup Hmarked]. unfold subscribedOnce.
  rewrite Hcalls, subscribedNames_app, Hname, Hreg. split.
  - apply NoDup_app. split; [done|]. split; [|apply NoDup_singleton].
    intros n Hn Hin. apply list_elem_of_singleton in Hin as ->.
    destruct (Hmarked _ Hn) as [b Hb]. congruence.
  - intros n Hn. apply elem_of_app in Hn as [Hn|Hn].
    + destruct (decide (name = n)) as [->|Hne].
      * by rewrite lookup_insert_eq.
      * rewrite lookup_insert_ne by done. by apply Hmarked.
    + apply list_elem_of_singleton in Hn as ->. by rewrite lookup_insert_eq.
Qed.

Lemma busStep_refl g : busStep g g.
Proof. repeat split. exists []. by rewrite app_nil_r. Qed.

Lemma busStep_trans g1 g2 g3 : busStep g1 g2 -> busStep g2 g3 -> busStep g1 g3.
Proof.
  intros (Hs1 & Hd1 & Hm1 & Hst1 & Ht1 & Hc1 & cs1 & Hcalls1 & Hbus1)
         (Hs2 & Hd2 & Hm2 & Hst2 & Ht2 & Hc2 & cs2 & Hcalls2 & Hbus2).
  unfold busStep. rewrite Hs2, Hd2, Hm2, Hst2, Ht2, Hc2. repeat split; try done.
  exists (cs1 ++ cs2). rewrite Hcalls2, Hcalls1, <- app_assoc.
  split; [done|]. by apply forallb_isBusCall_app.
Qed.

Lemma registerMessage_step m g :
  busStep g (snd (registerMessage m g)) /\
  (subscribedOnce g -> subscribedOnce (snd (registerMessage m g))).
Proof.
  rewrite registerMessage_eq.
  destruct (alreadyRegistred g !! SchemaName m) eqn:Hreg; cbn [snd].
  - split; [apply busStep_refl|done].
  - split.
    + unfold busStep. cbn. repeat split. by exists [CallBusHandleMessage m].
    + by apply (subscribedOnce_step (SchemaName m) (CallBusHandleMessage m)).
Qed.

Lemma registerEvent_step (exchange topic : string) m g :
  busStep g (snd (registerEvent exchange topic m g)) /\
  (subscribedOnce g -> subscribedOnce (snd (registerEvent exchange topic m g))).
Proof.
  rewrite registerEvent_eq.
  destruct (alreadyRegistred g !! SchemaName m) eqn:Hreg; cbn [snd].
  - split; [apply busStep_refl|done].
  - split.
    + unfold busStep. cbn. repeat split. by exists [CallBusHandleEvent exchange topic m].
    + by apply (subscribedOnce_step (SchemaName m) (CallBusHandleEvent exchange topic m)).
Qed.

(** The registrations of a saga touch the handler table of the Def, the
    bus and the registered set, and nothing else. *)
Lemma RegisterAllHandlers_step (asks : list HandlerRegistration) def g :
  sagaConfFns (fst (RegisterAllHandlers asks def g)) = sagaConfFns def /\
  startedBy (fst (RegisterAllHandlers asks def g)) = startedBy def /\
  busStep g (snd (RegisterAllHandlers asks def g)) /\
  (subscribedOnce g -> subscribedOnce (snd (RegisterAllHandlers asks def g))).
Proof.
  revert def g. induction asks as [|ask asks IH]; intros def g.
  - simpl. split; [done|]. split; [done|]. split; [apply busStep_refl|done].
  - destruct ask as [m handler|exchange topic m handler]; cbn [RegisterAllHandlers];
      unfold bind.
    + unfold Def_HandleMessage.
      destruct (registerMessage_step m g) as [Hstep Honce].
      destruct (registerMessage m g) as [e g1]. cbn [fst snd] in *.
      destruct (IH (addMsgToHandlerMapping "" (svcName g) m handler def) g1)
        as (Hconf & Hstarted & Hstep1 & Honce1).
      rewrite Hconf, Hstarted. split; [done|]. split; [done|].
      split; [by eapply busStep_trans|auto].
    + unfold Def_HandleEvent, bind, ret.
      destruct (registerEvent_step exchange topic m g) as [Hstep Honce].
      destruct (registerEvent exchange topic m g) as [e g1]. cbn [fst snd] in *.
      destruct (IH (addMsgToHandlerMapping exchange topic m handler def) g1)
        as (Hconf & Hstarted & Hstep1 & Honce1).
      rewrite Hconf, Hstarted. split; [done|]. split; [done|].
      split; [by eapply busStep_trans|auto].
Qed.

Lemma getDefs_ext k g1 g2 :
  msgToDefMap g1 = msgToDefMap g2 ->
  fst (getDefsForMsgName k g1) = fst (getDefsForMsgName k g2).
Proof. unfold getDefsForMsgName. cbn [fst]. by intros ->. Qed.

Lemma indexed_getDefs g k d : indexed g k d <-> d ∈ fst (getDefsForMsgName k g).
Proof.
  unfold indexed, getDefsForMsgName. cbn [fst].
  destruct (msgToDefMap g !! k) as [defs|].
  - split; [by intros (defs' & [= <-] & Hd)|]. intros Hd. by exists defs.
  - split; [by intros (defs' & [=] & _)|]. intros Hd. by apply elem_of_nil in Hd.
Qed.

(** What the registration of a saga of a type not registered yet leaves. *)
Lemma RegisterSaga_fresh_shape saga conf g :
  isSagaAlreadyRegistered_in (sagaDefs g) (TypeOf saga) = false ->
  exists def cs,
    fst (RegisterSaga saga conf g) = None /\
    sagaType def = TypeOf saga /\ sagaConfFns def = conf /\
    startedBy def = fqnsFromMessages (Saga_StartedBy saga) /\
    getHandledMessages def =
      map (fun ask => ToLower (SchemaName (askedMessage ask))) (Saga_RegisterAllHandlers saga) /\
    sagaDefs (snd (RegisterSaga saga conf g)) = sagaDefs g ++ [def] /\
    calls (snd (RegisterSaga saga conf g)) = calls g ++ CallRegisterSagaType saga :: cs /\
    forallb isBusCall cs = true /\
    sagaStore (snd (RegisterSaga saga conf g)) = RegisterSagaType (sagaStore g) saga /\
    timeoutManager (snd (RegisterSaga saga conf g)) = timeoutManager g /\
    (forall k,
       fst (getDefsForMsgName k (snd (RegisterSaga saga conf g))) =
         fst (getDefsForMsgName k g) ++
         replicate (length (List.filter (String.eqb k) (getHandledMessages def))) def) /\
    (subscribedOnce g -> subscribedOnce (snd (RegisterSaga saga conf g))).
Proof.
  intros Hfresh. rewrite RegisterSaga_fresh by done. cbn zeta.
  set (g0 := with_sagaStore _ _).
  set (def0 := mkDef (TypeOf saga) conf (fqnsFromMessages (Saga_StartedBy saga)) []).
  destruct (RegisterAllHandlers_table (Saga_RegisterAllHandlers saga) def0 g0)
    as (Hty & Hnames & Hdefs & Hmap).
  destruct (RegisterAllHandlers_step (Saga_RegisterAllHandlers saga) def0 g0)
    as (Hconf & Hstarted & Hstep & Honce).
  destruct (RegisterAllHandlers _ def0 g0) as [def g2]. cbn [fst snd] in *.
  destruct Hstep as (Hsvc & _ & _ & Hstore & Htimer & Hcreated & cs & Hcalls & Hbus).
  exists def, cs.
  destruct (addMsgNamesToDef_only_index (getHandledMessages def) def
              (with_sagaDefs (sagaDefs g2 ++ [def]) g2)) as [index Hindex].
  split; [done|]. split; [done|]. split; [done|]. split; [done|].
  split; [by rewrite Hnames|].
  split; [by rewrite addMsgNamesToDef_sagaDefs; simpl; rewrite Hdefs|].
  split; [rewrite Hindex; simpl; rewrite Hcalls; subst g0; simpl;
          by rewrite <- app_assoc|].
  split; [done|].
  split; [by rewrite Hindex; simpl; rewrite Hstore|].
  split; [by rewrite Hindex; simpl; rewrite Htimer|].
  split.
  - intros k. rewrite getDefs_after_addMsgNames. f_equal.
    apply getDefs_ext. simpl. by rewrite Hmap.
  - intros Hg. apply (subscribedOnce_ext g2); [by rewrite Hindex|by rewrite Hindex|].
    apply Honce. apply (subscribedOnce_ext g); [|done|done].
    subst g0. simpl. rewrite subscribedNames_app. simpl. by rewrite app_nil_r.
Qed.

Lemma RegisterSaga_registered_noop saga conf g :
  isSagaAlreadyRegistered_in (sagaDefs g) (TypeOf saga) = true ->
  snd (RegisterSaga saga conf g) = g.
Proof.
  intros Hreg. unfold RegisterSaga, bind, isSagaAlreadyRegistered. by rewrite Hreg.
Qed.

(** X7. Over registrations the bus is never asked twice to handle the
    same schema name: if no name has been subscribed twice so far and
    every subscribed name is in the registered set, the same holds after
    [RegisterSaga], whatever the saga registers and whatever the bus
    answers. *)
Theorem RegisterSaga_subscribes_each_name_once saga conf g :
  subscribedOnce g -> subscribedOnce (snd (RegisterSaga saga conf g)).
Proof.
  intros Hg.
  destruct (isSagaAlreadyRegistered_in (sagaDefs g) (TypeOf saga)) eqn:Hreg.
  - by rewrite RegisterSaga_registered_noop.
  - destruct (RegisterSaga_fresh_shape saga conf g Hreg)
      as (def & cs & _ & _ & _ & _ & _ & _ & _ & _ & _ & _ & _ & Honce).
    by apply Honce.
Qed.

(** X8. [RegisterSaga] keeps the saga types of the registered Defs
    pairwise distinct. *)
Theorem RegisterSaga_keeps_types_distinct saga conf g :
  NoDup (map sagaType (sagaDefs g)) ->
  NoDup (map sagaType (sagaDefs (snd (RegisterSaga saga conf g)))).
Proof.
  intros Hg.
  destruct (isSagaAlreadyRegistered_in (sagaDefs g) (TypeOf saga)) eqn:Hreg.
  - by rewrite RegisterSaga_registered_noop.
  - destruct (RegisterSaga_fresh_shape saga conf g Hreg)
      as (def & cs & _ & Hty & _ & _ & _ & Hdefs & _).
    rewrite Hdefs, map_app. apply NoDup_app. split; [done|].
    split; [|apply NoDup_singleton].
    intros ty Hin Hnew. apply list_elem_of_singleton in Hnew. subst ty.
    apply list_elem_of_fmap in Hin as (d & Heq & Hd).
    assert (isSagaAlreadyRegistered_in (sagaDefs g) (TypeOf saga) = true) as Htrue.
    { apply isSagaAlreadyRegistered_in_true. exists d. split; [done|]. congruence. }
    congruence.
Qed.

(** X9. For a saga whose type is not registered, [RegisterSaga] returns
    nil, whatever the bus answered to the subscriptions.  It first asks
    the store to prepare storage for the saga and issues nothing but
    subscriptions after that; it appends one Def, of the type of the
    saga, with the configuration functions given and the schema names
    of the start messages of the saga, in their order; the timeout
    manager is not touched. *)
Theorem RegisterSaga_registers_fresh_type saga conf g :
  (forall def, def ∈ sagaDefs g -> sagaType def <> TypeOf saga) ->
  let g' := snd (RegisterSaga saga conf g) in
  fst (RegisterSaga saga conf g) = None /\
  (exists def,
     sagaDefs g' = sagaDefs g ++ [def] /\ sagaType def = TypeOf saga /\
     sagaConfFns def = conf /\
     startedBy def = map SchemaName (Saga_StartedBy saga)) /\
  (exists cs, issued g g' = CallRegisterSagaType saga :: cs /\
              forallb isBusCall cs = true) /\
  sagaStore g' = RegisterSagaType (sagaStore g) saga /\
  timeoutManager g' = timeoutManager g.
Proof.
  intros Hnew g'.
  assert (isSagaAlreadyRegistered_in (sagaDefs g) (TypeOf saga) = false) as Hfresh.
  { destruct (isSagaAlreadyRegistered_in (sagaDefs g) (TypeOf saga)) eqn:Hreg; [|done].
    apply isSagaAlreadyRegistered_in_true in Hreg as (def & Hin & Hty).
    by destruct (Hnew def Hin). }
  destruct (RegisterSaga_fresh_shape saga conf g Hfresh)
    as (def & cs & Hnil & Hty & Hconf & Hstarted & _ & Hdefs & Hcalls & Hbus & Hstore
        & Htimer & _).
  split; [done|]. split; [|split; [|done]].
  - exists def. rewrite Hstarted. unfold fqnsFromMessages. rewrite fold_fqns. done.
  - exists cs. split; [|done]. by apply issued_app.
Qed.

(** X10. [RegisterSaga] only appends to the index: under every name the
    Defs listed before the call stay listed, in the same order and
    before anything new, and what is appended is the Def of the saga
    being registered.  The Defs under a name are thus in the order of
    their registration. *)
Theorem RegisterSaga_appends_to_index saga conf g k :
  let g' := snd (RegisterSaga saga conf g) in
  exists added,
    fst (getDefsForMsgName k g') = fst (getDefsForMsgName k g) ++ added /\
    forall d, d ∈ added ->
      sagaType d = TypeOf saga /\ d ∈ sagaDefs g' /\ (d ∉ sagaDefs g) /\
      k ∈ getHandledMessages d.
Proof.
  intros g'. subst g'.
  destruct (isSagaAlreadyRegistered_in (sagaDefs g) (TypeOf saga)) eqn:Hreg.
  - rewrite RegisterSaga_registered_noop by done. exists [].
    split; [by rewrite app_nil_r|]. intros d Hd. by apply elem_of_nil in Hd.
  - destruct (RegisterSaga_fresh_shape saga conf g Hreg)
      as (def & cs & _ & Hty & _ & _ & _ & Hdefs & _ & _ & _ & _ & Hindex & _).
    eexists. split; [apply Hindex|].
    intros d Hd. apply elem_of_replicate in Hd as [-> Hcount].
    split; [done|]. split; [rewrite Hdefs; apply elem_of_app; right; by left|].
    split.
    + intros Hold.
      assert (isSagaAlreadyRegistered_in (sagaDefs g) (TypeOf saga) = true) as Htrue
        by (apply isSagaAlreadyRegistered_in_true; by exists def).
      congruence.
    + destruct (decide (k ∈ getHandledMessages def)) as [Hin|Hnot]; [done|].
      apply filter_eqb_empty in Hnot. by rewrite Hnot in Hcount.
Qed.

(** X11. [RegisterSaga] keeps the index sound: if every Def listed in
    the index is a registered Def and is listed only under names its
    handler table covers, the same holds after the call.  On a sound
    index, a message whose lowered name no registered Def handles is
    ignored by [SagaHandler]: nil is returned and nothing is called or
    changed. *)
Theorem RegisterSaga_keeps_index_sound saga conf g :
  indexSound g ->
  indexSound (snd (RegisterSaga saga conf g)) /\
  (forall invocation message,
     (forall d, d ∈ sagaDefs g ->
        ToLower (BusMessage.PayloadFQN message) ∉ getHandledMessages d) ->
     SagaHandler invocation message g = (None, g)).
Proof.
  intros Hg. split.
  - intros k d Hd. apply indexed_getDefs in Hd.
    destruct (isSagaAlreadyRegistered_in (sagaDefs g) (TypeOf saga)) eqn:Hreg.
    + rewrite RegisterSaga_registered_noop in * by done.
      apply Hg. by apply indexed_getDefs.
    + destruct (RegisterSaga_fresh_shape saga conf g Hreg)
        as (def & cs & _ & _ & _ & _ & _ & Hdefs & _ & _ & _ & _ & Hindex & _).
      rewrite Hindex in Hd. rewrite Hdefs. apply elem_of_app in Hd as [Hd|Hd].
      * apply indexed_getDefs in Hd. destruct (Hg k d Hd) as [Hin Hk].
        split; [apply elem_of_app; by left|done].
      * apply elem_of_replicate in Hd as [-> Hcount].
        split; [apply elem_of_app; right; by left|].
        destruct (decide (k ∈ getHandledMessages def)) as [Hin|Hnot]; [done|].
        apply filter_eqb_empty in Hnot. by rewrite Hnot in Hcount.
  - intros invocation message Hnone. unfold SagaHandler, resolveDefs.
    destruct (msgToDefMap g !! ToLower (BusMessage.PayloadFQN message))
      as [[|d defs]|] eqn:Hk; [done| |done].
    destruct (Hg (ToLower (BusMessage.PayloadFQN message)) d) as [Hin Hhandled].
    { exists (d :: defs). split; [done|by left]. }
    by destruct (Hnone d Hin).
Qed.

(** ** What a dispatch touches *)

Lemma frame_refl (allowed : Call -> bool) (creating : bool) g : frame allowed creating g g.
Proof.
  split; [done|]. split; [|done]. exists []. by rewrite app_nil_r.
Qed.

Lemma frame_trans (allowed : Call -> bool) (creating : bool) g1 g2 g3 :
  frame allowed creating g1 g2 -> frame allowed creating g2 g3 ->
  frame allowed creating g1 g3.
Proof.
  intros ((Hs1 & Hb1 & Hd1 & Hr1 & Hm1) & (cs1 & Hcalls1 & Hall1) & Hc1)
         ((Hs2 & Hb2 & Hd2 & Hr2 & Hm2) & (cs2 & Hcalls2 & Hall2) & Hc2).
  split; [|split].
  - unfold sameRegistry. by rewrite Hs2, Hb2, Hd2, Hr2, Hm2.
  - exists (cs1 ++ cs2). rewrite Hcalls2, Hcalls1, <- app_assoc.
    split; [done|]. by rewrite forallb_app, Hall1, Hall2.
  - intros Hno. by rewrite Hc2, Hc1.
Qed.

Lemma frame_weaken (allowed allowed' : Call -> bool) (creating : bool) g g' :
  (forall c, allowed c = true -> allowed' c = true) ->
  frame allowed false g g' -> frame allowed' creating g g'.
Proof.
  intros Himp (Hreg & (cs & Hcalls & Hall) & Hcreated).
  split; [done|]. split; [|by intros _; apply Hcreated].
  exists cs. split; [done|].
  apply forallb_forall. intros c Hc. apply Himp.
  by apply (proj1 (forallb_forall allowed cs) Hall).
Qed.

Lemma frame_store_call (allowed : Call -> bool) (creating : bool) c (s : StoreS) g :
  allowed c = true -> frame allowed creating g (after_store_call c s g).
Proof.
  intros Hc. split; [done|]. split; [|done]. exists [c]. simpl. by rewrite Hc.
Qed.

Lemma frame_timer_call (allowed : Call -> bool) (creating : bool) c (t : TimerS) g :
  allowed c = true -> frame allowed creating g (after_timer_call c t g).
Proof.
  intros Hc. split; [done|]. split; [|done]. exists [c]. simpl. by rewrite Hc.
Qed.

Lemma frame_call (allowed : Call -> bool) (creating : bool) c g :
  allowed c = true -> frame allowed creating g (after_call c g).
Proof.
  intros Hc. split; [done|]. split; [|done]. exists [c]. simpl. by rewrite Hc.
Qed.

Lemma completeOrUpdateSaga_frame (allowed : Call -> bool) (creating : bool) tx instance g :
  allowed (CallDeleteSaga tx instance) = true ->
  allowed (CallClearTimeout tx (ID instance)) = true ->
  allowed (CallUpdateSaga tx instance) = true ->
  frame allowed creating g (snd (completeOrUpdateSaga tx instance g)).
Proof.
  intros Hdelete Hclear Hupdate. rewrite completeOrUpdateSaga_eq.
  destruct (isComplete instance); cbn zeta.
  - destruct (fst (DeleteSaga (sagaStore g) tx instance)); cbn [snd].
    + by apply frame_store_call.
    + apply (frame_trans _ _ g
               (after_store_call (CallDeleteSaga tx instance)
                  (snd (DeleteSaga (sagaStore g) tx instance)) g));
        [by apply frame_store_call|by apply frame_timer_call].
  - cbn [snd]. by apply frame_store_call.
Qed.

Lemma dispatchCall_creating tx c :
  dispatchCall tx false c = true -> dispatchCall tx true c = true.
Proof. by destruct c. Qed.

Lemma completeOrUpdateSaga_dispatch (creating : bool) tx instance g :
  frame (dispatchCall tx creating) creating g (snd (completeOrUpdateSaga tx instance g)).
Proof.
  apply completeOrUpdateSaga_frame; simpl; apply Nat.eqb_refl.
Qed.

Lemma invokeInstances_frame (creating : bool) def invocation message instances g :
  frame (dispatchCall (Invocation.Tx invocation) creating) creating g
        (snd (invokeInstances def invocation message instances g)).
Proof.
  revert g. induction instances as [|instance rest IH]; intros g.
  - apply frame_refl.
  - rewrite invokeInstances_cons, invokeInstances_one. cbn zeta.
    set (g1 := after_call _ g).
    assert (frame (dispatchCall (Invocation.Tx invocation) creating) creating g g1)
      as Hinvoke by (by apply frame_call).
    destruct (invokeResult _ _ _ _) as [instance' [invkErr|]]; [done|].
    pose proof (completeOrUpdateSaga_dispatch creating (Invocation.Tx invocation)
                  instance' g1) as Hrec.
    destruct (completeOrUpdateSaga _ instance' g1) as [[e|] g2]; cbn [snd] in *.
    + by eapply frame_trans.
    + eapply frame_trans; [by eapply frame_trans|apply IH].
Qed.

Lemma correlatedDispatch_frame (creating : bool) def invocation message g :
  frame (dispatchCall (Invocation.Tx invocation) creating) creating g
        (snd (correlatedDispatch def invocation message g)).
Proof.
  unfold correlatedDispatch.
  set (g1 := after_store_call _ _ g).
  assert (frame (dispatchCall (Invocation.Tx invocation) creating) creating g g1)
    as Hfetch by (apply frame_store_call; simpl; apply Nat.eqb_refl).
  destruct (fst (GetSagaByID _ _ _)) as [[instance|] [getErr|]]; try done.
  set (g2 := after_call _ g1).
  assert (frame (dispatchCall (Invocation.Tx invocation) creating) creating g g2)
    as Hinvoke by (eapply frame_trans; [done|by apply frame_call]).
  destruct (invokeResult _ _ _ _) as [instance' [invkErr|]]; [done|].
  eapply frame_trans; [done|apply completeOrUpdateSaga_dispatch].
Qed.

Lemma handleNewSaga_frame def invocation message g :
  frame (dispatchCall (Invocation.Tx invocation) true) true g
        (snd (handleNewSaga def invocation message g)).
Proof.
  rewrite handleNewSaga_eq. cbn zeta.
  set (tx := Invocation.Tx invocation).
  set (g1 := after_call _ (with_created _ g)).
  assert (frame (dispatchCall tx true) true g g1) as Hinvoke.
  { split; [done|]. split; [|done]. by eexists [_]. }
  destruct (invokeResult _ _ _ _) as [after [invkErr|]]; [done|].
  destruct (isComplete after); [done|].
  set (g2 := after_store_call _ _ g1).
  assert (frame (dispatchCall tx true) true g g2) as Hsave.
  { eapply frame_trans; [done|]. apply frame_store_call. simpl. apply Nat.eqb_refl. }
  destruct (fst (SaveNewSaga _ _ _ _)) as [e|]; [done|].
  destruct (Saga_TimeoutDuration _) as [duration|]; [|done].
  cbn [snd]. eapply frame_trans; [done|].
  apply frame_timer_call. simpl. apply Nat.eqb_refl.
Qed.

Lemma handleDefs_frame (creating : bool) invocation message (defs : list Def) g :
  (creating = false -> forall d, d ∈ defs -> shouldStartNewSaga d message = false) ->
  frame (dispatchCall (Invocation.Tx invocation) creating) creating g
        (snd (handleDefs invocation message defs g)).
Proof.
  revert g. induction defs as [|def rest IH]; intros g Hstart; [apply frame_refl|].
  destruct (shouldStartNewSaga def message) eqn:Hdef.
  { rewrite handleDefs_start by done. destruct creating.
    - apply handleNewSaga_frame.
    - rewrite Hstart in Hdef; [done|done|by left]. }
  destruct (decide (BusMessage.SagaCorrelationID message = "")) as [Hcorr|Hcorr].
  2:{ rewrite handleDefs_correlated by done. apply correlatedDispatch_frame. }
  assert (BusMessage.Semantics message = CMD \/ BusMessage.Semantics message <> CMD)
    as [Hcmd|Hevt] by (destruct (BusMessage.Semantics message); auto).
  { rewrite handleDefs_command by done. apply frame_refl. }
  rewrite handleDefs_fan_out by done. cbn zeta.
  set (g1 := after_store_call _ _ g).
  assert (frame (dispatchCall (Invocation.Tx invocation) creating) creating g g1)
    as Hfetch by (apply frame_store_call; simpl; apply Nat.eqb_refl).
  destruct (fst (GetSagasByType _ _ _)) as [instances [e|]]; [done|].
  pose proof (invokeInstances_frame creating def invocation message instances g1) as Hloop.
  destruct (invokeInstances _ _ _ _ g1) as [[e|] g2]; cbn [snd] in *.
  - by eapply frame_trans.
  - eapply frame_trans; [by eapply frame_trans|]. apply IH.
    intros Hno d Hd. apply Hstart; [done|by right].
Qed.

Lemma frame_issued (allowed : Call -> bool) (creating : bool) g g' :
  frame allowed creating g g' -> forallb allowed (issued g g') = true.
Proof.
  intros (_ & (cs & Hcalls & Hall) & _). by rewrite (issued_app g g' cs).
Qed.

Lemma TimeoutSaga_frame tx sagaID g :
  frame (timeoutCall tx) false g (snd (TimeoutSaga tx sagaID g)).
Proof.
  rewrite TimeoutSaga_eq. cbn zeta.
  set (g1 := after_store_call _ _ g).
  assert (frame (timeoutCall tx) false g g1) as Hfetch
    by (apply frame_store_call; simpl; apply Nat.eqb_refl).
  destruct (fst (GetSagaByID _ _ _)) as [[saga|] [err|]];
    try (destruct (error_is_sentinel err)); try done.
  set (g2 := after_call (CallTimeout saga tx) g1).
  assert (frame (timeoutCall tx) false g g2) as Hfired.
  { eapply frame_trans; [done|]. apply frame_call. simpl. apply Nat.eqb_refl. }
  destruct (snd (Saga_Timeout _ _)) as [timeoutErr|]; [done|]. cbn [snd].
  set (g3 := after_call CallSagaTimeoutCounterInc g2).
  apply (frame_trans _ _ g g3).
  - eapply frame_trans; [done|]. by apply frame_call.
  - apply completeOrUpdateSaga_frame; simpl; apply Nat.eqb_refl.
Qed.

(** X12. Dispatch never changes the registration side of the glue:
    after [SagaHandler], and after [TimeoutSaga], the service name, the
    bus, the registered Defs, the registered set of schema names and
    the index are what they were. *)
Theorem dispatch_leaves_registry invocation message tx sagaID g :
  sameRegistry g (snd (SagaHandler invocation message g)) /\
  sameRegistry g (snd (TimeoutSaga tx sagaID g)).
Proof.
  split.
  - apply (handleDefs_frame true invocation message (resolveDefs g message) g). done.
  - apply (TimeoutSaga_frame tx sagaID g).
Qed.

(** X13. Every call [SagaHandler] issues on the store and on the
    timeout manager carries the transaction of the invocation; apart
    from these it only invokes message handlers: it never prepares
    storage, never subscribes on the bus and never runs a timeout
    handler. *)
Theorem SagaHandler_calls_in_transaction invocation message g :
  forallb (dispatchCall (Invocation.Tx invocation) true)
          (issued g (snd (SagaHandler invocation message g))) = true.
Proof.
  apply (frame_issued _ true).
  apply (handleDefs_frame true invocation message (resolveDefs g message) g). done.
Qed.

(** X14. Instances are created by start messages only: when the message
    starts none of the Defs indexed under its name, [SagaHandler]
    constructs no instance and issues neither [SaveNewSaga] nor
    [RegisterTimeout]. *)
Theorem SagaHandler_creates_only_on_start invocation message g :
  (forall d, d ∈ resolveDefs g message -> shouldStartNewSaga d message = false) ->
  let g' := snd (SagaHandler invocation message g) in
  created g' = created g /\
  forallb (dispatchCall (Invocation.Tx invocation) false) (issued g g') = true /\
  (forall tx ty instance, CallSaveNewSaga tx ty instance ∉ issued g g') /\
  (forall tx sagaID duration, CallRegisterTimeout tx sagaID duration ∉ issued g g').
Proof.
  intros Hstart g'.
  pose proof (handleDefs_frame false invocation message (resolveDefs g message) g
                (fun _ => Hstart)) as Hframe.
  fold (SagaHandler invocation message g) in Hframe. fold g' in Hframe.
  pose proof (frame_issued _ _ _ _ Hframe) as Hall.
  destruct Hframe as (_ & _ & Hcreated).
  split; [by apply Hcreated|]. split; [done|].
  split; intros; intros Hin;
    apply list_elem_of_In in Hin;
    apply (proj1 (forallb_forall _ _) Hall) in Hin; discriminate.
Qed.

(** ** The branches of the dispatch, at their edges *)

(** X15. A message with a correlation id that does not start the first
    Def and whose instance the store finds: the handler is invoked once,
    on that instance as configured by the Def.  If the handler fails,
    its error is returned and no update or delete is issued; if it
    succeeds, the instance as the handler left it is reconciled and the
    result of the reconciliation is returned. *)
Theorem SagaHandler_correlated_found def rest invocation message g instance :
  resolveDefs g message = def :: rest ->
  shouldStartNewSaga def message = false ->
  BusMessage.SagaCorrelationID message <> "" ->
  fst (GetSagaByID (sagaStore g) (Invocation.Tx invocation)
         (BusMessage.SagaCorrelationID message)) = (Some instance, None) ->
  let tx := Invocation.Tx invocation in
  let sagaID := BusMessage.SagaCorrelationID message in
  let configured := configureSaga def instance in
  let invoke := invokeCall (svcName g) configured invocation message in
  let handled := fst (invokeResult (svcName g) configured invocation message) in
  let invkErr := snd (invokeResult (svcName g) configured invocation message) in
  let g1 := after_store_call (CallGetSagaByID tx sagaID)
              (snd (GetSagaByID (sagaStore g) tx sagaID)) g in
  let g2 := after_call invoke g1 in
  let g' := snd (SagaHandler invocation message g) in
  invokedInstances (issued g g') = [configured] /\
  (forall e, invkErr = Some e ->
     SagaHandler invocation message g = (Some e, g2) /\
     issued g g2 = [CallGetSagaByID tx sagaID; invoke]) /\
  (invkErr = None ->
     SagaHandler invocation message g = completeOrUpdateSaga tx handled g2 /\
     reconciledInstances (issued g g') = [handled]).
Proof.
  intros Hdefs Hstart Hcorr Hfetched tx sagaID configured invoke handled invkErr g1 g2 g'.
  subst g'. unfold SagaHandler. rewrite Hdefs, handleDefs_correlated by done.
  unfold correlatedDispatch. cbn zeta. rewrite Hfetched.
  fold tx sagaID configured invoke g1 g2. subst handled invkErr.
  assert (issued g g2 = [CallGetSagaByID tx sagaID; invoke]) as Hissued2.
  { apply issued_app. subst g2 g1. simpl. by rewrite <- app_assoc. }
  destruct (invokeResult (svcName g) configured invocation message)
    as [handled [invkErr|]]; cbn [fst snd].
  - rewrite Hissued2. split; [done|]. split; [|done]. by intros e [= ->].
  - destruct (completeOrUpdateSaga_calls tx handled g2)
      as (cs & Hcalls & Hprefix & Hne & _ & _).
    assert (issued g (snd (completeOrUpdateSaga tx handled g2))
              = [CallGetSagaByID tx sagaID; invoke] ++ cs) as Hissued.
    { apply issued_app. rewrite Hcalls. subst g2 g1. simpl.
      by rewrite <- !app_assoc. }
    rewrite Hissued, invokedInstances_app, reconciledInstances_app.
    rewrite (invokedInstances_reconcile tx handled cs) by done.
    rewrite (reconciledInstances_reconcile tx handled cs) by done.
    split; [done|]. split; [done|]. done.
Qed.

(** X16. The event fan-out at its edges.  When [GetSagasByType] fails,
    its error is returned, no handler is invoked and the Defs that
    follow are not processed, whatever instances came with the error.
    When it returns no instance, nothing is invoked for the Def and the
    call goes on with the Defs that follow. *)
Theorem SagaHandler_fan_out_fetch_edge def rest invocation message g :
  resolveDefs g message = def :: rest ->
  shouldStartNewSaga def message = false ->
  BusMessage.SagaCorrelationID message = "" ->
  BusMessage.Semantics message <> CMD ->
  let tx := Invocation.Tx invocation in
  let fetched := GetSagasByType (sagaStore g) tx (sagaType def) in
  let g1 := after_store_call (CallGetSagasByType tx (sagaType def)) (snd fetched) g in
  issued g g1 = [CallGetSagasByType tx (sagaType def)] /\
  (forall instances e, fst fetched = (instances, Some e) ->
     SagaHandler invocation message g = (Some e, g1)) /\
  (fst fetched = ([], None) ->
     SagaHandler invocation message g = handleDefs invocation message rest g1).
Proof.
  intros Hdefs Hstart Hcorr Hevt tx fetched g1.
  unfold SagaHandler. rewrite Hdefs, handleDefs_fan_out by done. cbn zeta.
  fold tx fetched g1. split; [by apply issued_app|]. split.
  - by intros instances e ->.
  - by intros ->.
Qed.

Lemma handleNewSaga_saves_unless_complete_calls def invocation message g :
  exists cs,
    issued g (snd (handleNewSaga def invocation message g)) =
      invokeCall (svcName g) (stampedInstance def invocation message g)
        invocation message :: cs.
Proof.
  rewrite handleNewSaga_eq. cbn zeta.
  destruct (invokeResult _ _ _ _) as [after [invkErr|]];
    [eexists; by apply issued_app|].
  destruct (isComplete after); [eexists; by apply issued_app|].
  destruct (fst (SaveNewSaga _ _ _ _)) as [e|];
    [|destruct (Saga_TimeoutDuration _) as [duration|]];
    eexists; apply issued_app; simpl; rewrite <- ?app_assoc; reflexivity.
Qed.

(** X17. The end of the creation path, for an instance that is not
    complete after its first invocation.  If [SaveNewSaga] fails, its
    error is returned and no timeout is registered.  If the save
    succeeds and the instance requests no timeout, nil is returned.  If
    it requests one, [RegisterTimeout] is issued once, for the id of the
    new instance, with the requested duration and in the transaction of
    the invocation, and its result is the result: a failure is returned
    although the instance has been saved. *)
Theorem handleNewSaga_registers_requested_timeout def invocation message g :
  let tx := Invocation.Tx invocation in
  let stamped := stampedInstance def invocation message g in
  let after := fst (invokeResult (svcName g) stamped invocation message) in
  let invoke := invokeCall (svcName g) stamped invocation message in
  let save := CallSaveNewSaga tx (sagaType def) after in
  let saved := SaveNewSaga (sagaStore g) tx (sagaType def) after in
  let result := fst (handleNewSaga def invocation message g) in
  let g' := snd (handleNewSaga def invocation message g) in
  snd (invokeResult (svcName g) stamped invocation message) = None ->
  isComplete after = false ->
  sagaStore g' = snd saved /\
  (forall e, fst saved = Some e ->
     result = Some e /\ issued g g' = [invoke; save] /\
     timeoutManager g' = timeoutManager g) /\
  (fst saved = None -> requestsTimeout after = (false, 0%Z) ->
     result = None /\ issued g g' = [invoke; save] /\
     timeoutManager g' = timeoutManager g) /\
  (fst saved = None -> forall duration, requestsTimeout after = (true, duration) ->
     let registered := RegisterTimeout (timeoutManager g) tx (ID stamped) duration in
     result = fst registered /\
     issued g g' = [invoke; save; CallRegisterTimeout tx (ID stamped) duration] /\
     timeoutManager g' = snd registered).
Proof.
  intros tx stamped after invoke save saved result g' Hinvoked Hcomplete.
  subst result g'. rewrite handleNewSaga_eq. cbn zeta.
  fold tx stamped invoke. subst after save saved.
  destruct (invokeResult (svcName g) stamped invocation message) as [after invkErr] eqn:Hres.
  cbn [fst snd] in *. subst invkErr. rewrite Hcomplete.
  assert (ID after = ID stamped) as Hid.
  { pose proof (invokeResult_keeps_fields (svcName g) stamped invocation message)
      as [Hid _]. by rewrite Hres in Hid. }
  unfold requestsTimeout.
  destruct (fst (SaveNewSaga (sagaStore g) tx (sagaType def) after)) as [e|];
    [|destruct (Saga_TimeoutDuration (UnderlyingInstance after)) as [duration|]];
    cbn [fst snd];
    (erewrite issued_app by (simpl; rewrite <- ?app_assoc; reflexivity)).
  - split; [done|]. split; [by intros e' [= ->]|]. split; [done|]. done.
  - split; [done|]. split; [done|]. split; [done|].
    intros _ duration' [= <-]. rewrite <- Hid. done.
  - split; [done|]. split; [done|]. split; [done|]. done.
Qed.

(** X18. What the first handler of a new saga is given: the routing of
    the invocation, the inbound message, and an invocation context that
    carries the id of the new instance, the service name of the glue as
    hosting service and, as causation, the invoking service and the
    saga id, RPC id and id of the message. *)
Theorem handleNewSaga_handler_context def invocation message g :
  exists instance sginv cs,
    issued g (snd (handleNewSaga def invocation message g)) =
      CallInvoke instance (fst (Invocation.Routing invocation))
        (snd (Invocation.Routing invocation)) sginv message :: cs /\
    instance = stampedInstance def invocation message g /\
    sagaInvocation.decoratedInvocation sginv = invocation /\
    sagaInvocation.inboundMsg sginv = message /\
    sagaInvocation.sagaID sginv = ID instance /\
    sagaInvocation.hostingSvc sginv = svcName g /\
    sagaInvocation.startedBy sginv = Invocation.InvokingSvc invocation /\
    sagaInvocation.startedBySaga sginv = BusMessage.SagaID message /\
    sagaInvocation.startedByRPCID sginv = BusMessage.RPCID message /\
    sagaInvocation.startedByMessageID sginv = BusMessage.ID message.
Proof.
  destruct (handleNewSaga_saves_unless_complete_calls def invocation message g)
    as (cs & Hissued).
  exists (stampedInstance def invocation message g),
         (sagaInvocationOf (svcName g) (stampedInstance def invocation message g)
            invocation message), cs.
  split; [exact Hissued|]. done.
Qed.

(** X19. Every call [TimeoutSaga] issues on the store and on the
    timeout manager, and the call of the timeout handler, carry the
    transaction it was given; it invokes no message handler, saves no
    new saga, registers no timeout and constructs no instance.  The
    counter of fired timeouts is incremented exactly when an instance
    was found and its timeout handler returned without error, be the
    reconciliation that follows a success or not. *)
Theorem TimeoutSaga_calls_and_counter tx sagaID g :
  let g' := snd (TimeoutSaga tx sagaID g) in
  let fetched := fst (GetSagaByID (sagaStore g) tx sagaID) in
  forallb (timeoutCall tx) (issued g g') = true /\
  created g' = created g /\
  (CallSagaTimeoutCounterInc ∈ issued g g' <->
   exists instance, fetched = (Some instance, None) /\
                snd (Saga_Timeout (UnderlyingInstance instance) tx) = None).
Proof.
  intros g' fetched.
  pose proof (TimeoutSaga_frame tx sagaID g) as Hframe. fold g' in Hframe.
  split; [by eapply frame_issued|]. split; [by apply Hframe|].
  subst g' fetched. rewrite TimeoutSaga_eq. cbn zeta.
  set (lookup := CallGetSagaByID tx sagaID).
  set (g1 := after_store_call lookup _ g).
  assert (issued g g1 = [lookup]) as Hissued1 by (by apply issued_app).
  assert (forall (P : Prop), ~ P -> (CallSagaTimeoutCounterInc ∈ [lookup] <-> P)) as Hnever.
  { intros P HP. split; [|done]. intros Hin%list_elem_of_singleton. discriminate. }
  destruct (fst (GetSagaByID (sagaStore g) tx sagaID)) as [[found|] [err|]];
    try (destruct (error_is_sentinel err)); cbn [snd]; try rewrite Hissued1;
    try (apply Hnever; by intros (found' & [=] & _)).
  set (g2 := after_call (CallTimeout found tx) g1).
  destruct (snd (Saga_Timeout (UnderlyingInstance found) tx)) as [timeoutErr|] eqn:Hfired;
    cbn [snd].
  - erewrite issued_app by (subst g2 g1; simpl; rewrite <- app_assoc; reflexivity).
    split.
    + intros Hin. apply elem_of_cons in Hin as [|Hin]; [discriminate|].
      apply list_elem_of_singleton in Hin. discriminate.
    + intros (found' & [= <-] & Hnone). congruence.
  - set (g3 := after_call CallSagaTimeoutCounterInc g2).
    destruct (completeOrUpdateSaga_calls tx
                (with_UnderlyingInstance (fst (Saga_Timeout (UnderlyingInstance found) tx)) found)
                g3) as (cs & Hcalls & _).
    erewrite issued_app; last first.
    { rewrite Hcalls. subst g3 g2 g1. simpl. rewrite <- !app_assoc. reflexivity. }
    split.
    + intros _. by exists found.
    + intros _. simpl. right. right. by left.
Qed.

End GlueCoverage.

(** * The further properties on the concrete installation *)

Lemma emptyGlue_subscribedOnce : subscribedOnce (emptyGlue false).
Proof.
  split; [apply NoDup_nil_2|]. intros name Hname. by apply elem_of_nil in Hname.
Defined.

Lemma RegisterSaga_subscribes_each_name_once_witness :
  subscribedOnce (emptyGlue false) /\ subscribedOnce (registered false).
Proof.
  split; [exact emptyGlue_subscribedOnce|].
  exact (RegisterSaga_subscribes_each_name_once orderSaga [] (emptyGlue false)
           emptyGlue_subscribedOnce).
Defined.

Lemma RegisterSaga_keeps_types_distinct_witness :
  NoDup (map sagaType (sagaDefs (emptyGlue false))) /\
  NoDup (map sagaType (sagaDefs (registered false))).
Proof.
  assert (NoDup (map sagaType (sagaDefs (emptyGlue false)))) as Hempty
    by apply NoDup_nil_2.
  split; [exact Hempty|].
  exact (RegisterSaga_keeps_types_distinct orderSaga [] (emptyGlue false) Hempty).
Defined.

Lemma RegisterSaga_registers_fresh_type_witness :
  sagaDefs (registered false) = [orderDef] /\
  fst (RegisterSaga invoiceSaga [] (registered false)) = None /\
  timeoutManager (snd (RegisterSaga invoiceSaga [] (registered false))) =
    timeoutManager (registered false).
Proof.
  assert (sagaDefs (registered false) = [orderDef]) as Hdefs by (vm_compute; reflexivity).
  split; [exact Hdefs|].
  assert (forall def : Def (Saga := OrderSaga), def ∈ sagaDefs (registered false) ->
            sagaType def <> TypeOf invoiceSaga) as Hfresh.
  { intros def Hin. rewrite Hdefs in Hin. apply list_elem_of_singleton in Hin.
    rewrite Hin. discriminate. }
  pose proof (RegisterSaga_registers_fresh_type invoiceSaga [] (registered false) Hfresh)
    as Hthm.
  cbv zeta in Hthm. destruct Hthm as (Hnil & _ & _ & _ & Htimer).
  split; [exact Hnil|exact Htimer].
Defined.

Lemma emptyGlue_indexSound : indexSound (emptyGlue false).
Proof.
  intros k d (defs & Hk & _).
  change (msgToDefMap (emptyGlue false))
    with (∅ : gmap string (list (Def (Saga := OrderSaga)))) in Hk.
  rewrite lookup_empty in Hk. discriminate.
Defined.

Lemma RegisterSaga_keeps_index_sound_witness :
  let cancelled := envelope "OrderCancelled" "a" CMD in
  indexSound (emptyGlue false) /\ indexSound (registered false) /\
  SagaHandler invocation cancelled (registered false) = (None, registered false).
Proof.
  intros cancelled.
  destruct (RegisterSaga_keeps_index_sound orderSaga [] (emptyGlue false)
              emptyGlue_indexSound) as [Hsound _].
  split; [exact emptyGlue_indexSound|]. split; [exact Hsound|].
  destruct (RegisterSaga_keeps_index_sound invoiceSaga [] (registered false) Hsound)
    as [_ Hignored].
  apply (Hignored invocation cancelled).
  assert (sagaDefs (registered false) = [orderDef]) as Hdefs by (vm_compute; reflexivity).
  intros d Hd. rewrite Hdefs in Hd. apply list_elem_of_singleton in Hd. rewrite Hd.
  vm_compute. intros Hin.
  repeat (apply elem_of_cons in Hin as [Hin|Hin]; [discriminate|]).
  by apply elem_of_nil in Hin.
Defined.

Lemma SagaHandler_creates_only_on_start_witness :
  resolveDefs secondBroken orderShipped = [orderDef] /\
  shouldStartNewSaga orderDef orderShipped = false /\
  created (snd (SagaHandler invocation orderShipped secondBroken)) = created secondBroken.
Proof.
  assert (resolveDefs secondBroken orderShipped = [orderDef]) as Hdefs
    by (vm_compute; reflexivity).
  split; [exact Hdefs|]. split; [reflexivity|].
  assert (forall d : Def (Saga := OrderSaga), d ∈ resolveDefs secondBroken orderShipped ->
            shouldStartNewSaga d orderShipped = false) as Hstart.
  { intros d Hd. rewrite Hdefs in Hd. apply list_elem_of_singleton in Hd.
    rewrite Hd. reflexivity. }
  pose proof (SagaHandler_creates_only_on_start invocation orderShipped secondBroken Hstart)
    as Hthm.
  cbv zeta in Hthm. destruct Hthm as [Hcreated _]. exact Hcreated.
Defined.

Lemma SagaHandler_correlated_found_witness :
  let message := envelope "OrderPaid" "a" EVT in
  resolveDefs secondBroken message = [orderDef] /\
  fst (GetSagaByID (sagaStore secondBroken) (Invocation.Tx invocation)
         (BusMessage.SagaCorrelationID message)) = (Some (stored "a" false), None) /\
  invokedInstances (issued secondBroken (snd (SagaHandler invocation message secondBroken))) =
    [configureSaga orderDef (stored "a" false)].
Proof.
  intros message.
  assert (resolveDefs secondBroken message = [orderDef]) as Hdefs
    by (vm_compute; reflexivity).
  assert (fst (GetSagaByID (sagaStore secondBroken) (Invocation.Tx invocation)
                 (BusMessage.SagaCorrelationID message)) = (Some (stored "a" false), None))
    as Hfound by (vm_compute; reflexivity).
  assert (BusMessage.SagaCorrelationID message <> "") as Hcorr by discriminate.
  split; [exact Hdefs|]. split; [exact Hfound|].
  pose proof (SagaHandler_correlated_found orderDef [] invocation message secondBroken
                (stored "a" false) Hdefs eq_refl Hcorr Hfound) as Hthm.
  cbv zeta in Hthm. destruct Hthm as [Hinvoked _]. exact Hinvoked.
Defined.

Lemma SagaHandler_fan_out_fetch_edge_witness :
  let g := registered false in
  let fetched := GetSagasByType (sagaStore g) (Invocation.Tx invocation) (sagaType orderDef) in
  resolveDefs g orderShipped = [orderDef] /\
  fst fetched = ([], None) /\
  SagaHandler invocation orderShipped g =
    handleDefs invocation orderShipped []
      (after_store_call
         (CallGetSagasByType (Invocation.Tx invocation) (sagaType orderDef))
         (snd fetched) g).
Proof.
  intros g fetched.
  assert (resolveDefs g orderShipped = [orderDef]) as Hdefs by (vm_compute; reflexivity).
  assert (BusMessage.Semantics orderShipped <> CMD) as Hevt by discriminate.
  split; [exact Hdefs|]. split; [reflexivity|].
  pose proof (SagaHandler_fan_out_fetch_edge orderDef [] invocation orderShipped g
                Hdefs eq_refl eq_refl Hevt) as Hthm.
  cbv zeta in Hthm. destruct Hthm as (_ & _ & Hempty). exact (Hempty eq_refl).
Defined.

Lemma handleNewSaga_registers_requested_timeout_witness :
  let g := registered false in
  let stamped := stampedInstance orderDef invocation orderCreated g in
  let after := fst (invokeResult (svcName g) stamped invocation orderCreated) in
  isComplete after = false /\
  fst (handleNewSaga orderDef invocation orderCreated g) = None /\
  timeoutManager (snd (handleNewSaga orderDef invocation orderCreated g)) =
    timeoutManager g.
Proof.
  intros g stamped after.
  split; [reflexivity|].
  pose proof (handleNewSaga_registers_requested_timeout orderDef invocation orderCreated g
                eq_refl eq_refl) as Hthm.
  cbv zeta in Hthm. destruct Hthm as (_ & _ & Hplain & _).
  destruct (Hplain eq_refl eq_refl) as (Hnil & _ & Htimer).
  split; [exact Hnil|exact Htimer].
Defined.
